(** * Prediction-and-explanation pipeline of the risk-assessment app

    A shallow embedding of [src/程序APP.py]: one Streamlit script that is
    re-executed from top to bottom on every user action.  The classifier
    (joblib artifact) and the SHAP explainer are opaque collaborators; they
    enter the model as the fields of a [World].  Python floats and numpy
    float64 values are IEEE binary64 numbers: Rocq's primitive [float]. *)

From Stdlib Require Import ZArith List String Bool Lia.
From Stdlib Require Import Reals Lra.
From Stdlib Require Import Floats.
Import ListNotations.

Set Warnings "-inexact-float".
Local Open Scope string_scope.
Local Open Scope list_scope.

(** * Part I: the script, embedded *)

(** ** Python exceptions and script control *)

(** The subclasses of [Exception] the script can meet.  [str] is Python's
    [str(e)], the text the prediction handler shows. *)
Inductive exn : Type :=
| ValueError (msg : string)
| IndexError (msg : string)
| OtherException (msg : string).

Definition str (e : exn) : string :=
  match e with
  | ValueError m | IndexError m | OtherException m => m
  end.

(** What an opaque library call hands back: a value or a raised exception. *)
Inductive result (A : Type) : Type :=
| Returns (a : A)
| Throws (e : exn).
Arguments Returns {A} a.
Arguments Throws {A} e.

(** How a piece of the script ends.  [st.stop()] raises Streamlit's
    script-control exception, which derives from [BaseException]: an
    [except Exception] clause does not catch it. *)
Inductive outcome (A : Type) : Type :=
| Done (a : A)
| Raised (e : exn)
| Stopped.
Arguments Done {A} a.
Arguments Raised {A} e.
Arguments Stopped {A}.

(** ** Data of the pipeline *)

(** A value typed into the form: the select box yields a Python int, the
    sliders yield floats. *)
Inductive scalar : Type :=
| SInt (z : Z)
| SFloat (f : float).

(** numpy's promotion of a mixed row to float64.  The select box only
    offers 0, 1 and 2. *)
Definition to_float64 (v : scalar) : float :=
  match v with
  | SInt z => PrimFloat.of_uint63 (Uint63.of_Z z)
  | SFloat f => f
  end.

(** [pd.DataFrame([row], columns=names)]: one row with named columns. *)
Record DataFrame : Type := {
  columns : list string;
  row : list scalar
}.

(** The loaded classifier: its label list and its probability interface
    (rows in, one probability row per input row out, or an exception). *)
Record Classifier : Type := {
  classes_ : list Z;
  predict_proba : list (list float) -> result (list (list float))
}.

(** The object the explainer returns.  The script uses two things of it:
    [.shape] and the slice [[0, :, k].values] for a class index [k]. *)
Record Explanation : Type := {
  shape : list nat;
  class_slice : Z -> result (list float)
}.

(** The collaborators outside the script: the artifact behind
    [joblib.load('rf_model.pkl')] and [shap.TreeExplainer(model)(frame)]. *)
Record World : Type := {
  joblib_load : result Classifier;
  TreeExplainer : Classifier -> DataFrame -> result Explanation
}.

(** Values of the local variables of a successful prediction. *)
Record PredictionResult : Type := {
  probability_positive : float;
  probability_negative : float;
  predicted_class : Z;
  predicted_label : string
}.

(** One bar of [ax.barh] and one [ax.text] label. *)
Record Bar : Type := {
  bar_y : nat;
  bar_width : float;
  bar_color : string
}.

Record Label : Type := {
  text_x : float;
  text_y : nat;
  text_name : string;
  text_value : float;
  text_ha : string;
  text_color : string
}.

(** The figure handed to [st.pyplot].  The script never calls
    [ax.invert_yaxis()], so the y axis keeps matplotlib's default
    direction (values grow upwards). *)
Record Figure : Type := {
  bars : list Bar;
  labels : list Label;
  yaxis_inverted : bool
}.

(** What a run leaves behind, in program order: page elements and the
    calls made to the opaque collaborators. *)
Inductive event : Type :=
| PageStyle
| PageTitle
| InputForm
| StError (msg : string)
| ResultCard (r : PredictionResult)
| Pyplot (fig : Figure)
| Caption
| GuideExpander
| Footer
| CallJoblibLoad
| CallPredictProba (features : list (list float))
| CallTreeExplainer (sample : DataFrame).

(** Process-wide state that outlives a rerun: the [st.cache_resource]
    slot of [load_model] and matplotlib's global [rcParams]. *)
Record Session : Type := {
  cached_model : option Classifier;
  rcParams : list (string * string)
}.

(** State of one run of the script. *)
Record State : Type := {
  session : Session;
  trace : list event
}.

(** ** The script monad: state, exceptions and [st.stop] *)

Definition App (A : Type) : Type := State -> outcome A * State.

Definition ret {A} (a : A) : App A := fun s => (Done a, s).

Definition bind {A B} (m : App A) (k : A -> App B) : App B :=
  fun s =>
    match m s with
    | (Done a, s') => k a s'
    | (Raised e, s') => (Raised e, s')
    | (Stopped, s') => (Stopped, s')
    end.

Declare Scope app_scope.
Delimit Scope app_scope with app.
Notation "x <- m ;; k" := (bind m (fun x => k))
  (at level 61, m at next level, right associativity) : app_scope.
Notation "m ;;; k" := (bind m (fun _ => k))
  (at level 61, right associativity) : app_scope.
Local Open Scope app_scope.

Definition emit (ev : event) : App unit :=
  fun s => (Done tt, {| session := session s; trace := trace s ++ [ev] |}).

Definition raise {A} (e : exn) : App A := fun s => (Raised e, s).

Definition st_stop {A} : App A := fun s => (Stopped, s).

Definition st_error (msg : string) : App unit := emit (StError msg).

(** An opaque call: logged, then its value or its exception. *)
Definition call {A} (ev : event) (r : result A) : App A :=
  emit ev;;;
  match r with
  | Returns a => ret a
  | Throws e => raise e
  end.

(** [try: body except Exception as e: handler e]. *)
Definition try_except {A} (body : App A) (handler : exn -> App A) : App A :=
  fun s =>
    match body s with
    | (Raised e, s') => handler e s'
    | other => other
    end.

Definition get_session : App Session := fun s => (Done (session s), s).

Definition put_session (ss : Session) : App unit :=
  fun s => (Done tt, {| session := ss; trace := trace s |}).

(** ** load_model *)

Definition classes_ok (m : Classifier) : bool :=
  if list_eq_dec Z.eq_dec (classes_ m) [0; 1]%Z then true else false.

(** The body under [@st.cache_resource]: runs on a cache miss; its return
    value is stored, a run that ends in [st.stop()] stores nothing. *)
Definition load_model_body (w : World) : App Classifier :=
  model <- call CallJoblibLoad (joblib_load w);;
  if classes_ok model then ret model
  else
    st_error "模型类别定义异常，请确认训练标签顺序应为[0, 1]！";;;
    st_stop.

Definition load_model (w : World) : App Classifier :=
  ss <- get_session;;
  match cached_model ss with
  | Some model => ret model
  | None =>
      model <- load_model_body w;;
      put_session {| cached_model := Some model; rcParams := rcParams ss |};;;
      ret model
  end.

(** ** Feature definitions and the input form *)

Inductive FeatureKind : Type :=
| categorical (options : list Z) (labels : list string)
| numerical (min max default : float).

Record FeatureSpec : Type := {
  kind : FeatureKind;
  display_name : string
}.

(** The dict literal [feature_ranges]; a Python dict keeps insertion
    order, which [keys()] and iteration expose. *)
Definition feature_ranges : list (string * FeatureSpec) :=
  [ ("Subtype", {| kind := categorical [0; 1; 2]%Z ["LumA/B"; "HER2+"; "TNBC"];
                   display_name := "分子亚型" |});
    ("NLR", {| kind := numerical 0 10 5; display_name := "中性粒细胞/淋巴细胞比" |});
    ("IL6", {| kind := numerical 0 100 5; display_name := "白介素6" |});
    ("CAR", {| kind := numerical 0 5 0.2; display_name := "C反应蛋白/白蛋白" |});
    ("VitD", {| kind := numerical 0 100 35; display_name := "维生素D" |});
    ("FT4", {| kind := numerical 0 100 15; display_name := "游离甲状腺素" |}) ].

Definition keys {V} (d : list (string * V)) : list string := map fst d.

(** What the widgets return in one run, and whether the button was
    pressed. *)
Record Inputs : Type := {
  Subtype : Z;
  NLR : float;
  IL6 : float;
  CAR : float;
  VitD : float;
  FT4 : float;
  button : bool
}.

(** The six [feature_values.append(val)] calls, in source order. *)
Definition feature_values (i : Inputs) : list scalar :=
  [SInt (Subtype i); SFloat (NLR i); SFloat (IL6 i);
   SFloat (CAR i); SFloat (VitD i); SFloat (FT4 i)].

(** ** Risk prediction (the [try] body) *)

(** Lines 206-209, once the row is known to hold two entries. *)
Definition make_result (p0 p1 : float) : PredictionResult :=
  let probability_positive := (p1 * 100)%float in
  let probability_negative := (p0 * 100)%float in
  let predicted_class := if (50 <=? probability_positive)%float then 1%Z else 0%Z in
  let predicted_label := if (predicted_class =? 1)%Z then "高风险" else "低风险" in
  {| probability_positive := probability_positive;
     probability_negative := probability_negative;
     predicted_class := predicted_class;
     predicted_label := predicted_label |}.

(** Lines 203-209 on the row [proba_array]. *)
Definition interpret_proba (proba_array : list float) : result PredictionResult :=
  match proba_array with
  | [p0; p1] => Returns (make_result p0 p1)
  | _ => Throws (ValueError "模型输出维度异常")
  end.

Definition lift {A} (r : result A) : App A :=
  match r with
  | Returns a => ret a
  | Throws e => raise e
  end.

(** [rows[0]] on the array the classifier returned. *)
Definition first_row (rows : list (list float)) : result (list float) :=
  match rows with
  | r :: _ => Returns r
  | [] => Throws (IndexError "index 0 is out of bounds for axis 0 with size 0")
  end.

Definition predict_block (model : Classifier) (features : list (list float))
  : App PredictionResult :=
  rows <- call (CallPredictProba features) (predict_proba model features);;
  proba_array <- lift (first_row rows);;
  r <- lift (interpret_proba proba_array);;
  emit (ResultCard r);;;
  ret r.

Definition predict_handler {A} (e : exn) : App A :=
  st_error ("预测过程出现异常：" ++ str e);;;
  st_stop.

(** ** Attribution (the SHAP block) *)

(** Lines 266-269: which class index of the explanation is sliced. *)
Definition select_shap_values (shap_values : Explanation) (predicted_class : Z)
  : result (list float) :=
  if (List.length (shape shap_values) =? 3)%nat
  then class_slice shap_values predicted_class
  else class_slice shap_values 1%Z.

(** Line 271: numpy's unary minus, element by element. *)
Definition negate (vals : list float) : list float :=
  map (fun v => (- v)%float) vals.

(** Line 278: the colour of one bar. *)
Definition color_of (val : float) : string :=
  if (0 <? val)%float then "#ff6b6b" else "#4CAF50".

Definition np_arange (n : nat) : list nat := seq 0 n.

(** [ax.barh(y_pos, widths, color=colors)].  numpy broadcasting: the two
    sequences have the same length, or the shorter has one entry, which is
    then repeated (a single colour is repeated with it); any other pair of
    lengths raises [ValueError]. *)
Definition barh (y_pos : list nat) (widths : list float) (colors : list string)
  : result (list Bar) :=
  if (List.length widths =? List.length y_pos)%nat then
    Returns (map (fun '(y, (w, c)) => {| bar_y := y; bar_width := w; bar_color := c |})
                 (combine y_pos (combine widths colors)))
  else
    match widths, colors with
    | [w], [c] =>
        Returns (map (fun y => {| bar_y := y; bar_width := w; bar_color := c |}) y_pos)
    | _, _ =>
        Throws (ValueError "shape mismatch: objects cannot be broadcast to a single shape")
    end.

(** Lines 282-288: the [ax.text] call for entry [i]. *)
Definition text_label (i : nat) (val : float) (name : string) : Label :=
  {| text_x := if (0 <? val)%float then (val / 2)%float else (val * 1.2)%float;
     text_y := i;
     text_name := name;
     text_value := val;
     text_ha := if (val <? 0)%float then "left" else "right";
     text_color := if (0.2 <? abs val)%float then "white" else "#666" |}.

Fixpoint enumerate_from {A} (i : nat) (l : list A) : list (nat * A) :=
  match l with
  | [] => []
  | x :: l' => (i, x) :: enumerate_from (S i) l'
  end.

Definition display_names : list string :=
  map (fun f => display_name (snd f)) feature_ranges.

Definition text_labels (vals : list float) : list Label :=
  map (fun '(i, (val, name)) => text_label i val name)
      (enumerate_from 0 (combine vals display_names)).

Definition set_rcParams : App unit :=
  ss <- get_session;;
  put_session {| cached_model := cached_model ss;
                 rcParams := [("font.sans-serif", "SimHei");
                              ("axes.unicode_minus", "False")] |}.

(** Lines 274-288: the figure drawn from the (already negated) scores. *)
Definition render (current_shap_values : list float) : result Figure :=
  let y_pos := np_arange (List.length feature_ranges) in
  let colors := map color_of current_shap_values in
  match barh y_pos current_shap_values colors with
  | Returns bars =>
      Returns {| bars := bars;
                 labels := text_labels current_shap_values;
                 yaxis_inverted := false |}
  | Throws e => Throws e
  end.

(** Line 261. *)
Definition sample_data (i : Inputs) : DataFrame :=
  {| columns := keys feature_ranges; row := feature_values i |}.

(** Lines 257-315. *)
Definition shap_block (w : World) (model : Classifier) (i : Inputs)
  (predicted_class : Z) : App unit :=
  set_rcParams;;;
  shap_values <- call (CallTreeExplainer (sample_data i))
                      (TreeExplainer w model (sample_data i));;
  current_shap_values <- lift (select_shap_values shap_values predicted_class);;
  let current_shap_values := negate current_shap_values in
  fig <- lift (render current_shap_values);;
  emit (Pyplot fig);;;
  emit Caption.

(** ** The whole script: one rerun *)

(** Line 199: [np.array([feature_values])]. *)
Definition features (i : Inputs) : list (list float) :=
  [map to_float64 (feature_values i)].

Definition on_button (w : World) (model : Classifier) (i : Inputs) : App unit :=
  let features := features i in
  r <- try_except (predict_block model features) predict_handler;;
  shap_block w model i (predicted_class r).

Definition script (w : World) (i : Inputs) : App unit :=
  emit PageStyle;;;
  model <- load_model w;;
  emit PageTitle;;;
  emit InputForm;;;
  (if button i then on_button w model i else ret tt);;;
  emit GuideExpander;;;
  emit Footer.

(** One rerun in a session: how it ended, what it left on the page and in
    the call log, and the session the next rerun starts from. *)
Definition rerun (w : World) (i : Inputs) (ss : Session)
  : outcome unit * list event * Session :=
  let '(o, s) := script w i {| session := ss; trace := [] |} in
  (o, trace s, session s).

Definition fresh : Session := {| cached_model := None; rcParams := [] |}.

(** * Part II: vocabulary of the properties *)

(** ** Observations on a run *)

(** Projections of what [rerun] returns. *)
Definition outcome_of (x : outcome unit * list event * Session) : outcome unit :=
  fst (fst x).
Definition trace_of (x : outcome unit * list event * Session) : list event :=
  snd (fst x).
Definition session_of (x : outcome unit * list event * Session) : Session :=
  snd x.

Definition is_call (ev : event) : bool :=
  match ev with
  | CallJoblibLoad | CallPredictProba _ | CallTreeExplainer _ => true
  | _ => false
  end.

(** What the user sees: the trace without the calls to collaborators. *)
Definition page (t : list event) : list event :=
  filter (fun ev => negb (is_call ev)) t.

(** Events that belong to the explanation stage. *)
Definition explanation_event (ev : event) : bool :=
  match ev with
  | CallTreeExplainer _ | Pyplot _ | Caption => true
  | _ => false
  end.

(** [load_model] hands [model] to the script: from the cache, or from an
    artifact that passes the label check. *)
Definition serving (w : World) (ss : Session) (model : Classifier) : Prop :=
  cached_model ss = Some model \/
  (cached_model ss = None /\ joblib_load w = Returns model /\
   classes_ model = [0; 1]%Z).

Definition load_events (ss : Session) : list event :=
  match cached_model ss with
  | Some _ => []
  | None => [CallJoblibLoad]
  end.

Definition loaded (ss : Session) (model : Classifier) : Session :=
  {| cached_model := Some model; rcParams := rcParams ss |}.

Definition plotted (ss : Session) (model : Classifier) : Session :=
  {| cached_model := Some model;
     rcParams := [("font.sans-serif", "SimHei"); ("axes.unicode_minus", "False")] |}.

(** The session after a list of reruns, oldest first. *)
Fixpoint session_after (w : World) (history : list Inputs) (ss : Session) : Session :=
  match history with
  | [] => ss
  | i :: rest => session_after w rest (snd (rerun w i ss))
  end.

(** The state in which the button handler starts. *)
Definition at_form (ss : Session) (model : Classifier) : State :=
  {| session := loaded ss model;
     trace := [PageStyle] ++ load_events ss ++ [PageTitle; InputForm] |}.

(** The tail of the script after the button handler. *)
Definition finish (r : outcome unit * State) : outcome unit * list event * Session :=
  match r with
  | (Done _, s) => (Done tt, trace s ++ [GuideExpander; Footer], session s)
  | (Raised e, s) => (Raised e, trace s, session s)
  | (Stopped, s) => (Stopped, trace s, session s)
  end.

(** The events of a submission up to and including the call to the
    classifier, the result card, and the call to the explainer. *)
Definition until_predict (i : Inputs) (ss : Session) : list event :=
  [PageStyle] ++ load_events ss ++
  [PageTitle; InputForm; CallPredictProba (features i)].

Definition until_card (i : Inputs) (ss : Session) (r : PredictionResult)
  : list event :=
  until_predict i ss ++ [ResultCard r].

Definition until_explainer (i : Inputs) (ss : Session) (r : PredictionResult)
  : list event :=
  until_card i ss r ++ [CallTreeExplainer (sample_data i)].

(** What the explanation stage computes for the prediction [r], outside
    the monad: lines 261-288 as one function. *)
Definition explain (w : World) (i : Inputs) (model : Classifier)
  (r : PredictionResult) : result Figure :=
  match TreeExplainer w model (sample_data i) with
  | Throws e => Throws e
  | Returns shap_values =>
      match select_shap_values shap_values (predicted_class r) with
      | Throws e => Throws e
      | Returns current_shap_values => render (negate current_shap_values)
      end
  end.

(** ** The chart on the screen *)

(** Is height [y1] drawn above height [y2] on the screen?  On
    matplotlib's default axis larger y values are higher up; an inverted
    axis reverses this. *)
Definition drawn_above (fig : Figure) (y1 y2 : nat) : bool :=
  if yaxis_inverted fig then (y1 <? y2)%nat else (y2 <? y1)%nat.

(** The bars read from the top of the chart downwards follow the order of
    the list [bars fig]. *)
Definition reads_top_to_bottom (fig : Figure) : Prop :=
  forall a b ba bb,
    (a < b)%nat ->
    nth_error (bars fig) a = Some ba ->
    nth_error (bars fig) b = Some bb ->
    drawn_above fig (bar_y ba) (bar_y bb) = true.

(** The same, from the bottom upwards. *)
Definition reads_bottom_to_top (fig : Figure) : Prop :=
  forall a b ba bb,
    (a < b)%nat ->
    nth_error (bars fig) a = Some ba ->
    nth_error (bars fig) b = Some bb ->
    drawn_above fig (bar_y bb) (bar_y ba) = true.

(** ** Failure of the explanation stage *)

(** What C9 asks of a run whose explanation failed: the prediction card is
    on the page and the parts of the page outside the explanation section
    (here the two that follow it in the script) are rendered. *)
Definition soft_failure (t : list event) : Prop :=
  (exists r, In (ResultCard r) t) /\ In GuideExpander t /\ In Footer t.

(** ** Reruns in one session *)

(** What a run shows: how it ended and the page, without the call log. *)
Definition visible (x : outcome unit * list event * Session)
  : outcome unit * list event :=
  (outcome_of x, page (trace_of x)).

(** What [load_model] will hand to the script in session [ss]. *)
Definition effective (w : World) (ss : Session) : outcome Classifier :=
  match cached_model ss with
  | Some model => Done model
  | None =>
      match joblib_load w with
      | Returns model => if classes_ok model then Done model else Stopped
      | Throws e => Raised e
      end
  end.

Definition form_page : list event := [PageStyle; PageTitle; InputForm].

(** The page of a submission served by [model], as a function of the
    inputs and the collaborators alone. *)
Definition submission_view (w : World) (i : Inputs) (model : Classifier)
  : outcome unit * list event :=
  let failed (e : exn) :=
    (Stopped, form_page ++ [StError ("预测过程出现异常：" ++ str e)]) in
  if button i then
    match predict_proba model (features i) with
    | Throws e => failed e
    | Returns rows =>
        match first_row rows with
        | Throws e => failed e
        | Returns proba_array =>
            match interpret_proba proba_array with
            | Throws e => failed e
            | Returns r =>
                match explain w i model r with
                | Throws e => (Raised e, form_page ++ [ResultCard r])
                | Returns fig =>
                    (Done tt,
                     form_page ++ [ResultCard r; Pyplot fig; Caption;
                                   GuideExpander; Footer])
                end
            end
        end
    end
  else (Done tt, form_page ++ [GuideExpander; Footer]).

Definition view (w : World) (i : Inputs) (eff : outcome Classifier)
  : outcome unit * list event :=
  match eff with
  | Done model => submission_view w i model
  | Raised e => (Raised e, [PageStyle])
  | Stopped =>
      (Stopped,
       [PageStyle; StError "模型类别定义异常，请确认训练标签顺序应为[0, 1]！"])
  end.

(** ** Where result cards come from *)

(** Every result card in a trace was computed by [interpret_proba] from
    some row of probabilities. *)
Definition cards_sound (t : list event) : Prop :=
  forall r, In (ResultCard r) t ->
  exists proba_array, interpret_proba proba_array = Returns r.

(** A computation that keeps the invariant, however it ends. *)
Definition keeps {A} (m : App A) : Prop :=
  forall s, cards_sound (trace s) -> cards_sound (trace (snd (m s))).

Definition plain (ev : event) : Prop :=
  match ev with
  | ResultCard _ => False
  | _ => True
  end.

Create HintDb keeps.

(** ** Real values of binary64 numbers *)

Definition bpow (e : Z) : R := powerRZ 2 e.

Definition signR (s : bool) : R := if s then (-1)%R else 1%R.

(** The real number a finite binary64 value stands for; 0 for the rest. *)
Definition SF2R (x : spec_float) : R :=
  match x with
  | S754_finite s m e => (signR s * IZR (Zpos m) * bpow e)%R
  | _ => 0%R
  end.

Definition F2R (x : float) : R := SF2R (Prim2SF x).

Definition SF_finite (x : spec_float) : bool :=
  match x with
  | S754_finite _ _ _ | S754_zero _ => true
  | _ => false
  end.

(** The unit roundoff and the underflow threshold of binary64. *)
Definition u64 : R := bpow (-53).
Definition eta64 : R := bpow (-1075).

(** A binary64 value that is a probability: [0 <= p <= 1] in the float
    order, which excludes NaN and the infinities. *)
Definition is_probability (p : float) : bool :=
  ((0 <=? p) && (p <=? 1))%float.

(** ** Shifting a mantissa *)

Definition b2z (b : bool) : Z := if b then 1%Z else 0%Z.

(** After [k] one-bit shifts of the integer [m0], the record holds the
    quotient, the last bit shifted out and whether anything nonzero was
    shifted out before it. *)
Definition shr_inv (m0 k : Z) (mrs : shr_record) : Prop :=
  (0 <= shr_m mrs /\
   exists T, 0 <= T < 2 ^ k /\
     2 * m0 = 2 ^ k * (2 * shr_m mrs + b2z (shr_r mrs)) + T /\
     shr_s mrs = (0 <? T))%Z.

(** ** Concrete collaborators used to exercise the script *)

Module Sample.

Definition defaults : Inputs :=
  {| Subtype := 0; NLR := 5; IL6 := 5; CAR := 0.2; VitD := 35; FT4 := 15;
     button := true |}.

(** A classifier with the label list [labels] that answers every input
    row with the probability row [row]. *)
Definition constant_model (labels : list Z) (row : list float) : Classifier :=
  {| classes_ := labels;
     predict_proba := fun rows => Returns (map (fun _ => row) rows) |}.

Definition even_model : Classifier := constant_model [0; 1]%Z [0.5; 0.5]%float.
Definition swapped_model : Classifier := constant_model [1; 0]%Z [0.5; 0.5]%float.
Definition three_class_model : Classifier :=
  constant_model [0; 1]%Z [0.25; 0.25; 0.5]%float.

Definition positive_scores : list float := [0.25; -0.5; 0; 0.125; -0.0625; 1]%float.
Definition negative_scores : list float := [-0.25; 0.5; 0; -0.125; 0.0625; -1]%float.

(** A per-class explanation of shape (1, 6, 2). *)
Definition per_class : Explanation :=
  {| shape := [1; 6; 2]%nat;
     class_slice := fun k =>
       if (k =? 1)%Z then Returns positive_scores
       else if (k =? 0)%Z then Returns negative_scores
       else Throws (IndexError "index out of bounds") |}.

Definition world_of (m : Classifier) : World :=
  {| joblib_load := Returns m; TreeExplainer := fun _ _ => Returns per_class |}.

(** A world whose explainer fails. *)
Definition failing_explainer : World :=
  {| joblib_load := Returns even_model;
     TreeExplainer := fun _ _ => Throws (OtherException "additivity check failed") |}.

(** The chart the script draws from [positive_scores]. *)
Definition chart : Figure :=
  match render (negate positive_scores) with
  | Returns fig => fig
  | Throws _ => {| bars := []; labels := []; yaxis_inverted := false |}
  end.

(** The session after a first run that reached the chart. *)
Definition warm : Session := plotted fresh even_model.

End Sample.

(** ** The shapes a run can take *)

(** The [try] body of lines 202-209 without its page effect: the result
    it computes or the exception it raises. *)
Definition predict (model : Classifier) (i : Inputs) : result PredictionResult :=
  match predict_proba model (features i) with
  | Throws e => Throws e
  | Returns rows =>
      match first_row rows with
      | Throws e => Throws e
      | Returns proba_array => interpret_proba proba_array
      end
  end.

(** The six ways a rerun can go, each with its trace and the session it
    leaves. *)
Inductive run_shape (w : World) (i : Inputs) (ss : Session)
  : outcome unit * list event * Session -> Prop :=
| load_raises (e : exn) :
    cached_model ss = None ->
    joblib_load w = Throws e ->
    run_shape w i ss (Raised e, [PageStyle; CallJoblibLoad], ss)
| labels_rejected (model : Classifier) :
    cached_model ss = None ->
    joblib_load w = Returns model ->
    classes_ model <> [0; 1]%Z ->
    run_shape w i ss
      (Stopped,
       [PageStyle; CallJoblibLoad;
        StError "模型类别定义异常，请确认训练标签顺序应为[0, 1]！"],
       ss)
| idle (model : Classifier) :
    serving w ss model ->
    button i = false ->
    run_shape w i ss
      (Done tt,
       [PageStyle] ++ load_events ss ++
       [PageTitle; InputForm; GuideExpander; Footer],
       loaded ss model)
| prediction_failed (model : Classifier) (e : exn) :
    serving w ss model ->
    button i = true ->
    predict model i = Throws e ->
    run_shape w i ss
      (Stopped,
       until_predict i ss ++ [StError ("预测过程出现异常：" ++ str e)],
       loaded ss model)
| explanation_failed (model : Classifier) (r : PredictionResult) (e : exn) :
    serving w ss model ->
    button i = true ->
    predict model i = Returns r ->
    explain w i model r = Throws e ->
    run_shape w i ss (Raised e, until_explainer i ss r, plotted ss model)
| explained (model : Classifier) (r : PredictionResult) (fig : Figure) :
    serving w ss model ->
    button i = true ->
    predict model i = Returns r ->
    explain w i model r = Returns fig ->
    run_shape w i ss
      (Done tt,
       until_explainer i ss r ++ [Pyplot fig; Caption; GuideExpander; Footer],
       plotted ss model).

(** ** Events and sessions *)

(** Events of the prediction and explanation stages. *)
Definition pipeline_event (ev : event) : bool :=
  match ev with
  | CallPredictProba _ | ResultCard _ | CallTreeExplainer _ | Pyplot _ | Caption => true
  | _ => false
  end.

Definition is_load (ev : event) : bool :=
  match ev with
  | CallJoblibLoad => true
  | _ => false
  end.

(** How often [joblib.load] is called in a trace. *)
Definition loads (t : list event) : nat := List.length (filter is_load t).

(** The traces of a list of reruns in one session, oldest first. *)
Fixpoint session_trace (w : World) (history : list Inputs) (ss : Session)
  : list event :=
  match history with
  | [] => []
  | i :: rest =>
      trace_of (rerun w i ss) ++ session_trace w rest (session_of (rerun w i ss))
  end.

(** A cache that holds nothing, or the artifact with the right labels. *)
Definition cache_sound (w : World) (ss : Session) : Prop :=
  forall model, cached_model ss = Some model ->
  joblib_load w = Returns model /\ classes_ model = [0; 1]%Z.


Definition is_card (ev : event) : bool :=
  match ev with
  | ResultCard _ => true
  | _ => false
  end.

(** ** Further collaborators used to exercise the script *)

Module More.

Definition idle_defaults : Inputs :=
  {| Subtype := 0; NLR := 5; IL6 := 5; CAR := 0.2; VitD := 35; FT4 := 15;
     button := false |}.

(** A classifier that answers with no row at all. *)
Definition silent_model : Classifier :=
  {| classes_ := [0; 1]%Z; predict_proba := fun _ => Returns [] |}.

(** A world whose artifact cannot be loaded. *)
Definition missing_artifact : World :=
  {| joblib_load := Throws (OtherException "No such file or directory: 'rf_model.pkl'");
     TreeExplainer := fun _ _ => Returns Sample.per_class |}.



End More.

(** * Part III: lemmas *)

(** ** Facts about binary64 used below *)

Lemma float_opp_involutive (x : float) : (- - x)%float = x.
Proof.
  apply Prim2SF_inj. rewrite !opp_spec.
  destruct (Prim2SF x); simpl; rewrite ?negb_involutive; reflexivity.
Qed.

Lemma float_neg_pos (x : float) :
  (x <? 0)%float = true -> (0 <? - x)%float = true.
Proof.
  rewrite !ltb_spec, opp_spec.
  change (Prim2SF 0) with (S754_zero false).
  destruct (Prim2SF x) as [s|s| |s m e]; try destruct s; cbv; congruence.
Qed.

Lemma float_zero_not_pos (x : float) :
  (x =? 0)%float = true -> (0 <? x)%float = false.
Proof.
  rewrite eqb_spec, ltb_spec.
  change (Prim2SF 0) with (S754_zero false).
  destruct (Prim2SF x) as [s|s| |s m e]; try destruct s; cbv; congruence.
Qed.

Lemma negate_involutive (vals : list float) : negate (negate vals) = vals.
Proof.
  induction vals as [|v vals IH]; simpl; [reflexivity|].
  now rewrite float_opp_involutive, IH.
Qed.

Lemma negate_length (vals : list float) : List.length (negate vals) = List.length vals.
Proof. apply length_map. Qed.

(** ** Rounding error of binary64 multiplication and addition

    The primitive operations are specified by [SFmul] and [SFadd] on
    [spec_float] (round to nearest, ties to even).  This part derives the
    usual error model from that specification: the result of an
    operation on finite values differs from the exact result [v] by at
    most [u64 * |v| + eta64]. *)

Module Binary64.

Local Open Scope Z_scope.

Lemma shr_1_eq (m : Z) (r s : bool) :
  0 <= m ->
  shr_1 {| shr_m := m; shr_r := r; shr_s := s |}
  = {| shr_m := m / 2; shr_r := Z.odd m; shr_s := r || s |}.
Proof.
  intros Hm. rewrite <- Z.div2_div.
  destruct m as [|[p|p|]|]; try reflexivity; lia.
Qed.

Lemma shr_inv_step (m0 k : Z) (mrs : shr_record) :
  0 <= k -> shr_inv m0 k mrs -> shr_inv m0 (k + 1) (shr_1 mrs).
Proof.
  intros Hk [Hm (T & HT & Heq & Hs)].
  destruct mrs as [m r s]; cbn [shr_m shr_r shr_s] in *.
  rewrite shr_1_eq by exact Hm. unfold shr_inv; cbn [shr_m shr_r shr_s].
  pose proof (Z.div_mod m 2 ltac:(lia)) as Hdiv.
  pose proof (Z.mod_pos_bound m 2 ltac:(lia)) as Hmod.
  assert (Hodd : b2z (Z.odd m) = m mod 2).
  { rewrite Zmod_odd. now destruct (Z.odd m). }
  assert (Hpow : 2 ^ (k + 1) = 2 * 2 ^ k) by (rewrite Z.pow_add_r; lia).
  assert (Hpos : 0 < 2 ^ k) by (apply Z.pow_pos_nonneg; lia).
  split; [apply Z.div_pos; lia|].
  exists (b2z r * 2 ^ k + T). rewrite Hpow, Hodd.
  repeat split.
  - destruct r; unfold b2z; lia.
  - destruct r; unfold b2z; lia.
  - nia.
  - rewrite Hs. destruct r; unfold b2z, orb.
    + symmetry. apply Z.ltb_lt. lia.
    + replace (0 * 2 ^ k + T) with T by lia. reflexivity.
Qed.

Lemma shr_inv_iter (m0 : Z) (n : positive) :
  forall k mrs, 0 <= k -> shr_inv m0 k mrs ->
  shr_inv m0 (k + Zpos n) (SpecFloat.iter_pos shr_1 n mrs).
Proof.
  induction n as [n IH|n IH|]; intros k mrs Hk H; simpl.
  - replace (k + Zpos n~1) with (((k + 1) + Zpos n) + Zpos n) by lia.
    apply IH; [lia|]. apply IH; [lia|]. now apply shr_inv_step.
  - replace (k + Zpos n~0) with ((k + Zpos n) + Zpos n) by lia.
    apply IH; [lia|]. now apply IH.
  - now apply shr_inv_step.
Qed.

Lemma shr_inv_init (m0 : Z) :
  0 <= m0 -> shr_inv m0 0 {| shr_m := m0; shr_r := false; shr_s := false |}.
Proof.
  intros H. split; [exact H|]. exists 0.
  cbn [shr_m shr_r shr_s]. change (2 ^ 0) with 1. unfold b2z.
  repeat split; lia.
Qed.

(** Rounding the shifted record to nearest-even stays within half a unit
    of the shifted-out weight. *)
Lemma round_nearest_even_error (m0 k : Z) (mrs : shr_record) :
  0 <= k -> shr_inv m0 k mrs ->
  let m1 := round_nearest_even (shr_m mrs) (loc_of_shr_record mrs) in
  shr_m mrs <= m1 <= shr_m mrs + 1 /\
  - 2 ^ k <= 2 * m0 - 2 ^ (k + 1) * m1 <= 2 ^ k /\
  (k = 0 -> m1 = m0).
Proof.
  intros Hk [Hm (T & HT & Heq & Hs)].
  destruct mrs as [m r s]; cbn [shr_m shr_r shr_s] in *.
  assert (Hpow : 2 ^ (k + 1) = 2 * 2 ^ k) by (rewrite Z.pow_add_r; lia).
  assert (Hpos : 0 < 2 ^ k) by (apply Z.pow_pos_nonneg; lia).
  rewrite Hpow.
  destruct r, s; cbn [loc_of_shr_record round_nearest_even]; unfold b2z in Heq;
    symmetry in Hs;
    try apply Z.ltb_lt in Hs; try apply Z.ltb_ge in Hs;
    try destruct (Z.even m); repeat split; try nia;
    intros ->; change (2 ^ 0) with 1 in *; lia.
Qed.

(** *** Powers of two and digits *)

Lemma bpow_pos (e : Z) : (0 < bpow e)%R.
Proof. apply powerRZ_lt. lra. Qed.

Lemma bpow_add (a b : Z) : bpow (a + b) = (bpow a * bpow b)%R.
Proof. apply powerRZ_add. lra. Qed.

Lemma bpow_IZR (e : Z) : 0 <= e -> bpow e = IZR (2 ^ e).
Proof.
  intros He. unfold bpow. destruct e as [|p|p]; [reflexivity| |lia].
  simpl. rewrite pow_IZR. now rewrite positive_nat_Z.
Qed.

Lemma bpow_le (a b : Z) : a <= b -> (bpow a <= bpow b)%R.
Proof.
  intros H. replace b with (a + (b - a)) by lia. rewrite bpow_add.
  rewrite (bpow_IZR (b - a)) by lia.
  assert (1 <= 2 ^ (b - a)) by (apply Z.lt_pred_le, Z.pow_pos_nonneg; lia).
  apply IZR_le in H0. pose proof (bpow_pos a). nra.
Qed.

Lemma bpow_1 : bpow 1 = 2%R.
Proof. unfold bpow. simpl. lra. Qed.

Lemma bpow_opp (a : Z) : (bpow a * bpow (- a) = 1)%R.
Proof. rewrite <- bpow_add. now replace (a + - a) with 0 by lia. Qed.

Lemma digits2_pos_succ (m : positive) :
  Zpos (PosDef.Pos.succ (digits2_pos m)) = Zpos (digits2_pos m) + 1.
Proof. change PosDef.Pos.succ with Pos.succ. lia. Qed.

Lemma digits2_pos_bounds (m : positive) :
  2 ^ (Zpos (digits2_pos m) - 1) <= Zpos m < 2 ^ Zpos (digits2_pos m).
Proof.
  induction m as [m IH|m IH|]; cbn [digits2_pos];
    [| |change (1 <= 1 < 2); lia];
    rewrite digits2_pos_succ;
    replace (Zpos (digits2_pos m) + 1 - 1) with ((Zpos (digits2_pos m) - 1) + 1) by lia;
    rewrite !Z.pow_add_r by lia; change (2 ^ 1) with 2; lia.
Qed.

Lemma digits2_pos_le (m : positive) (k : Z) :
  0 <= k -> Zpos m < 2 ^ k -> Zpos (digits2_pos m) <= k.
Proof.
  intros Hk H. pose proof (digits2_pos_bounds m) as [Hlo _].
  destruct (Z_le_gt_dec (Zpos (digits2_pos m)) k) as [|Hgt]; [assumption|].
  assert (2 ^ k <= 2 ^ (Zpos (digits2_pos m) - 1)) by (apply Z.pow_le_mono_r; lia).
  lia.
Qed.

(** *** [binary_round_aux] on an exact positive mantissa *)

Lemma fexp_eq (x : Z) : fexp prec emax x = Z.max (x - 53) (-1074).
Proof. reflexivity. Qed.

Lemma shr_fexp_noshift (m e : Z) (l : location) :
  fexp prec emax (Zdigits2 m + e) <= e ->
  shr_fexp prec emax m e l = (shr_record_of_loc m l, e).
Proof.
  intros H. unfold shr_fexp, shr.
  destruct (fexp prec emax (Zdigits2 m + e) - e) eqn:E; try reflexivity; lia.
Qed.

Lemma shr_fexp_shift (m e : Z) :
  0 <= m ->
  e < fexp prec emax (Zdigits2 m + e) ->
  exists mrs,
    shr_fexp prec emax m e loc_Exact = (mrs, fexp prec emax (Zdigits2 m + e)) /\
    shr_inv m (fexp prec emax (Zdigits2 m + e) - e) mrs.
Proof.
  intros Hm H. unfold shr_fexp, shr.
  destruct (fexp prec emax (Zdigits2 m + e) - e) as [|n|n] eqn:E; try lia.
  eexists. split.
  - f_equal. lia.
  - cbn [shr_record_of_loc].
    exact (shr_inv_iter m n 0 _ (Z.le_refl 0) (shr_inv_init m Hm)).
Qed.

Lemma binary_round_aux_exact (s : bool) (m : positive) (e : Z) :
  fexp prec emax (Zpos (digits2_pos m) + e) <= e ->
  e <= emax - prec ->
  binary_round_aux prec emax s (Zpos m) e loc_Exact = S754_finite s m e.
Proof.
  intros H He. unfold binary_round_aux.
  rewrite shr_fexp_noshift by exact H.
  cbn [shr_record_of_loc shr_m loc_of_shr_record round_nearest_even].
  rewrite shr_fexp_noshift by exact H.
  cbn [shr_record_of_loc shr_m].
  apply Z.leb_le in He. now rewrite He.
Qed.

Lemma binary_round_aux_shifted (s : bool) (m : positive) (e : Z) :
  let e1 := fexp prec emax (Zpos (digits2_pos m) + e) in
  e < e1 ->
  e1 + 1 <= emax - prec ->
  exists m1,
    0 <= m1 /\
    - 2 ^ (e1 - e) <= 2 * Zpos m - 2 ^ (e1 - e + 1) * m1 <= 2 ^ (e1 - e) /\
    SF_finite (binary_round_aux prec emax s (Zpos m) e loc_Exact) = true /\
    SF2R (binary_round_aux prec emax s (Zpos m) e loc_Exact)
    = (signR s * IZR m1 * bpow e1)%R.
Proof.
  intros e1 He Hmax.
  destruct (shr_fexp_shift (Zpos m) e ltac:(lia) He) as (mrs & Heq & Hinv).
  change (fexp prec emax (Zdigits2 (Zpos m) + e)) with e1 in Heq, Hinv.
  unfold binary_round_aux. rewrite Heq.
  pose proof (round_nearest_even_error (Zpos m) (e1 - e) mrs ltac:(lia) Hinv)
    as (Hm1 & Herr & _).
  set (m1 := round_nearest_even (shr_m mrs) (loc_of_shr_record mrs)) in *.
  destruct Hinv as (Hm' & T & HT & HeqT & _).
  assert (He1 : -1074 <= e1 /\ Zpos (digits2_pos m) + e - 53 <= e1).
  { unfold e1. rewrite fexp_eq. lia. }
  assert (Hlt : shr_m mrs < 2 ^ 53).
  { pose proof (digits2_pos_bounds m) as [_ Hd].
    assert (HP : 0 < 2 ^ (e1 - e)) by (apply Z.pow_pos_nonneg; lia).
    destruct (Z_lt_ge_dec (shr_m mrs) (2 ^ 53)) as [|Hge]; [assumption|].
    assert (Hle : 2 ^ Zpos (digits2_pos m) <= 2 ^ (e1 - e + 53))
      by (apply Z.pow_le_mono_r; lia).
    rewrite Z.pow_add_r in Hle by lia.
    assert (Hb : 0 <= b2z (shr_r mrs)) by (unfold b2z; destruct (shr_r mrs); lia).
    rewrite Z.mul_add_distr_l in HeqT.
    assert (0 <= 2 ^ (e1 - e) * b2z (shr_r mrs)) by (apply Z.mul_nonneg_nonneg; lia).
    assert (2 ^ (e1 - e) * 2 ^ 53 <= 2 ^ (e1 - e) * shr_m mrs)
      by (apply Z.mul_le_mono_nonneg_l; lia).
    lia. }
  exists m1. split; [lia|]. split; [exact Herr|].
  destruct (Z.eq_dec m1 (2 ^ 53)) as [E53|N53].
  - rewrite E53. change (2 ^ 53) with 9007199254740992.
    unfold shr_fexp. cbn [Zdigits2 digits2_pos PosDef.Pos.succ].
    rewrite fexp_eq.
    replace (Z.max (54 + e1 - 53) (-1074) - e1) with 1 by lia.
    cbn -[Z.leb Z.add Z.sub emax prec bpow IZR].
    replace (e1 + 1 <=? emax - prec) with true by (symmetry; apply Z.leb_le; lia).
    split; [reflexivity|]. cbn [SF2R].
    rewrite bpow_add, bpow_1. lra.
  - assert (Hno : fexp prec emax (Zdigits2 m1 + e1) <= e1).
    { rewrite fexp_eq. destruct m1 as [|q|q]; cbn [Zdigits2]; try lia.
      pose proof (digits2_pos_le q 53 ltac:(lia) ltac:(lia)). lia. }
    rewrite shr_fexp_noshift by exact Hno.
    cbn [shr_record_of_loc shr_m].
    destruct m1 as [|q|q]; [| |lia].
    + split; [reflexivity|]. cbn [SF2R]. lra.
    + replace (e1 <=? emax - prec) with true by (symmetry; apply Z.leb_le; lia).
      split; reflexivity.
Qed.

Lemma signR_sq (s : bool) : (signR s * signR s = 1)%R.
Proof. destruct s; simpl; lra. Qed.

Lemma Rabs_signR (s : bool) : Rabs (signR s) = 1%R.
Proof.
  destruct s; unfold signR; [rewrite Rabs_left by lra; lra | apply Rabs_R1].
Qed.

Lemma signR_xorb (a b : bool) : signR (xorb a b) = (signR a * signR b)%R.
Proof. destruct a, b; simpl; lra. Qed.

(** Rounding an exact positive mantissa: the standard model, relative
    error [u64] in the normal range and absolute error [eta64] below it. *)
Lemma binary_round_aux_error (s : bool) (m : positive) (e : Z) :
  e <= emax - prec ->
  fexp prec emax (Zpos (digits2_pos m) + e) + 1 <= emax - prec ->
  let y := binary_round_aux prec emax s (Zpos m) e loc_Exact in
  let v := (IZR (Zpos m) * bpow e)%R in
  SF_finite y = true /\
  (0 <= signR s * SF2R y)%R /\
  (Rabs (SF2R y - signR s * v) <= u64 * v + eta64)%R.
Proof.
  intros He Hmax y v.
  set (e1 := fexp prec emax (Zpos (digits2_pos m) + e)) in *.
  assert (Hv : (0 < v)%R).
  { unfold v. apply Rmult_lt_0_compat; [apply IZR_lt; lia | apply bpow_pos]. }
  assert (Hu : (0 < u64)%R) by apply bpow_pos.
  assert (Heta : (0 < eta64)%R) by apply bpow_pos.
  pose proof (signR_sq s) as Hs.
  destruct (Z_le_gt_dec e1 e) as [Hle|Hgt].
  - subst y. rewrite (binary_round_aux_exact s m e Hle He). cbn [SF_finite SF2R].
    fold v. replace (signR s * IZR (Zpos m) * bpow e)%R with (signR s * v)%R
      by (unfold v; ring).
    repeat split.
    + replace (signR s * (signR s * v))%R with (signR s * signR s * v)%R by ring.
      rewrite Hs. lra.
    + replace (signR s * v - signR s * v)%R with 0%R by ring.
      rewrite Rabs_R0. nra.
  - destruct (binary_round_aux_shifted s m e ltac:(fold e1; lia) ltac:(fold e1; lia))
      as (m1 & Hm1 & Herr & Hfin & Hval).
    fold e1 in Herr, Hval. fold y in Hfin, Hval.
    split; [exact Hfin|]. rewrite Hval.
    set (n := e1 - e) in *.
    assert (Hn : 0 < n) by (unfold n; lia).
    assert (Hb1 : bpow e1 = (bpow e * IZR (2 ^ n))%R).
    { rewrite <- bpow_IZR, <- bpow_add by lia. f_equal. unfold n. lia. }
    assert (HP : (0 < IZR (2 ^ n))%R) by (apply IZR_lt, Z.pow_pos_nonneg; lia).
    assert (Hpow : 2 ^ (n + 1) = 2 * 2 ^ n) by (rewrite Z.pow_add_r; lia).
    rewrite Hpow in Herr.
    destruct Herr as [Hlo Hhi].
    apply IZR_le in Hlo, Hhi.
    rewrite minus_IZR, !mult_IZR in Hlo, Hhi. rewrite opp_IZR in Hlo.
    assert (HM1 : (0 <= IZR m1)%R) by (apply IZR_le; exact Hm1).
    pose proof (bpow_pos e) as HB.
    (* the error is at most half a unit of the result's last place *)
    assert (Hhalf : (bpow e * IZR (2 ^ n) / 2 <= u64 * v + eta64)%R).
    { assert (He1 : e1 = Z.max (Zpos (digits2_pos m) + e - 53) (-1074))
        by reflexivity.
      rewrite <- Hb1.
      destruct (Z.max_spec (Zpos (digits2_pos m) + e - 53) (-1074)) as [[_ E]|[_ E]];
        rewrite E in He1.
      - replace (bpow e1 / 2)%R with eta64; [nra|].
        unfold eta64. rewrite He1.
        replace (-1074) with (-1075 + 1) by lia. rewrite bpow_add, bpow_1. lra.
      - pose proof (digits2_pos_bounds m) as [Hd _].
        apply IZR_le in Hd.
        rewrite <- bpow_IZR in Hd by lia.
        assert (Hrel : (bpow e1 / 2 = u64 * (bpow (Zpos (digits2_pos m) - 1) * bpow e))%R).
        { unfold u64. rewrite <- !bpow_add. rewrite He1.
          replace (Zpos (digits2_pos m) + e - 53)
            with ((-53 + (Zpos (digits2_pos m) - 1 + e)) + 1) by lia.
          rewrite (bpow_add _ 1), bpow_1. lra. }
        rewrite Hrel. unfold v.
        assert ((bpow (Zpos (digits2_pos m) - 1) * bpow e
                 <= IZR (Zpos m) * bpow e)%R) by nra.
        nra. }
    split.
    + replace (signR s * (signR s * IZR m1 * bpow e1))%R
        with (signR s * signR s * (IZR m1 * bpow e1))%R by ring.
      rewrite Hs. pose proof (bpow_pos e1). nra.
    + replace (signR s * IZR m1 * bpow e1 - signR s * v)%R
        with (signR s * (bpow e * (IZR (2 ^ n) * IZR m1 - IZR (Zpos m))))%R
        by (rewrite Hb1; unfold v; ring).
      rewrite Rabs_mult.
      rewrite Rabs_signR, Rmult_1_l.
      apply Rle_trans with (2 := Hhalf).
      apply Rabs_le. split; nra.
Qed.

(** *** Multiplication *)

Lemma digits2_pos_mul (a b : positive) :
  Zpos (digits2_pos (a * b)) <= Zpos (digits2_pos a) + Zpos (digits2_pos b).
Proof.
  apply digits2_pos_le; [lia|].
  pose proof (digits2_pos_bounds a) as [_ Ha].
  pose proof (digits2_pos_bounds b) as [_ Hb].
  rewrite Z.pow_add_r, Pos2Z.inj_mul by lia. nia.
Qed.

(** The product of two finite numbers whose digits and exponents leave
    room below the overflow threshold. *)
Lemma SFmul_error (sx sy : bool) (mx my : positive) (ex ey : Z) :
  ex + ey <= emax - prec ->
  Zpos (digits2_pos mx) + Zpos (digits2_pos my) + ex + ey < emax ->
  let x := S754_finite sx mx ex in
  let y := S754_finite sy my ey in
  let z := SFmul prec emax x y in
  SF_finite z = true /\
  (0 <= signR sx * signR sy * SF2R z)%R /\
  (Rabs (SF2R z - SF2R x * SF2R y)
   <= u64 * Rabs (SF2R x * SF2R y) + eta64)%R.
Proof.
  intros He Hd x y z. subst x y z. cbn [SFmul SF2R].
  pose proof (digits2_pos_mul mx my) as Hdm.
  destruct (binary_round_aux_error (xorb sx sy) (mx * my) (ex + ey) He)
    as (Hfin & Hsign & Herr).
  { rewrite fexp_eq. unfold emax, prec in *. lia. }
  rewrite signR_xorb in Hsign, Herr.
  split; [exact Hfin|]. split; [exact Hsign|].
  assert (Hx : (0 < IZR (Zpos mx) * bpow ex)%R).
  { apply Rmult_lt_0_compat; [apply IZR_lt; lia | apply bpow_pos]. }
  assert (Hy : (0 < IZR (Zpos my) * bpow ey)%R).
  { apply Rmult_lt_0_compat; [apply IZR_lt; lia | apply bpow_pos]. }
  assert (Hv : (IZR (Zpos (mx * my)) * bpow (ex + ey)
                = (IZR (Zpos mx) * bpow ex) * (IZR (Zpos my) * bpow ey))%R).
  { rewrite Pos2Z.inj_mul, mult_IZR, bpow_add. ring. }
  rewrite Hv in Herr.
  replace (signR sx * IZR (Zpos mx) * bpow ex * (signR sy * IZR (Zpos my) * bpow ey))%R
    with (signR sx * signR sy
          * ((IZR (Zpos mx) * bpow ex) * (IZR (Zpos my) * bpow ey)))%R by ring.
  rewrite (Rabs_mult (signR sx * signR sy)), (Rabs_mult (signR sx)), !Rabs_signR.
  rewrite (Rabs_pos_eq (_ * _ * _)) by (now apply Rlt_le, Rmult_lt_0_compat).
  rewrite !Rmult_1_l. exact Herr.
Qed.

(** *** Probabilities and percentages *)

Lemma is_probability_SF (p : float) :
  is_probability p = true ->
  (exists s, Prim2SF p = S754_zero s) \/
  (exists m e, Prim2SF p = S754_finite false m e /\
               e <= -52 /\ Zpos (digits2_pos m) <= 53).
Proof.
  unfold is_probability. rewrite andb_true_iff, !leb_spec.
  pose proof (Prim2SF_valid p) as Hvalid.
  change (Prim2SF 0) with (S754_zero false).
  change (Prim2SF 1) with (S754_finite false 4503599627370496 (-52)).
  destruct (Prim2SF p) as [s|s| |s m e]; intros [H0 H1].
  - left. eauto.
  - destruct s; discriminate.
  - discriminate.
  - right. destruct s; [discriminate|]. exists m, e. split; [reflexivity|].
    cbn [valid_binary] in Hvalid. unfold bounded, canonical_mantissa in Hvalid.
    apply andb_true_iff in Hvalid. destruct Hvalid as [Hc _].
    apply Z.eqb_eq in Hc. rewrite fexp_eq in Hc.
    unfold SFleb, SFcompare in H1.
    destruct (Z.compare_spec e (-52)); try discriminate; lia.
Qed.

Lemma F2R_probability_nonneg (p : float) :
  is_probability p = true -> (0 <= F2R p)%R.
Proof.
  intros [[s Hp] | (m & e & Hp & _)]%is_probability_SF; unfold F2R; rewrite Hp;
    cbn [SF2R signR]; [lra|].
  pose proof (bpow_pos e). assert (0 < IZR (Zpos m))%R by (apply IZR_lt; lia).
  nra.
Qed.

(** A probability times 100: finite, not negative, and within the error
    model of the exact product. *)
Lemma times_100_error (p : float) :
  is_probability p = true ->
  SF_finite (Prim2SF (p * 100)) = true /\
  (0 <= F2R (p * 100))%R /\
  (Rabs (F2R (p * 100) - F2R p * 100) <= u64 * (F2R p * 100) + eta64)%R.
Proof.
  intros Hp. pose proof (F2R_probability_nonneg p Hp) as Hnn.
  unfold F2R in *. rewrite mul_spec. unfold SF64mul.
  change (Prim2SF 100) with (S754_finite false 7036874417766400 (-46)).
  assert (H100 : SF2R (S754_finite false 7036874417766400 (-46)) = 100%R).
  { cbn [SF2R signR]. unfold bpow. simpl. lra. }
  destruct (is_probability_SF p Hp) as [[s Hz] | (m & e & Hf & He & Hd)].
  - rewrite Hz. cbn [SFmul SF_finite SF2R].
    pose proof (bpow_pos (-53)). pose proof (bpow_pos (-1075)).
    unfold u64, eta64.
    replace (0 - 0 * 100)%R with 0%R by ring. rewrite Rabs_R0.
    repeat split; lra.
  - rewrite Hf in *.
    destruct (SFmul_error false false m 7036874417766400 e (-46))
      as (Hfin & Hsign & Herr).
    + unfold emax, prec. lia.
    + change (Zpos (digits2_pos 7036874417766400)) with 53. unfold emax. lia.
    + rewrite H100 in Herr. cbn [signR] in Hsign.
      rewrite (Rabs_pos_eq (_ * 100)) in Herr by lra.
      split; [exact Hfin|]. split; [lra | exact Herr].
Qed.

(** *** Addition of two non-negative finite numbers *)

Lemma shl_align_value (m : positive) (e e' : Z) :
  let '(m', e'') := shl_align m e e' in
  (IZR (Zpos m') * bpow e'' = IZR (Zpos m) * bpow e)%R /\
  e'' <= e /\ (e' <= e -> e'' = e').
Proof.
  unfold shl_align. destruct (e' - e) as [|d|d] eqn:E.
  - repeat split; lia.
  - repeat split; lia.
  - change (Pos.iter xO m d) with (shift_pos d m).
    rewrite shift_pos_correct, mult_IZR, Zpower_pos_powerRZ.
    fold (bpow (Zpos d)). repeat split; try lia.
    replace e with (Zpos d + e') by lia. rewrite bpow_add. ring.
Qed.

Lemma bpow_lt_inv (a b : Z) : (bpow a < bpow b)%R -> a < b.
Proof.
  intros H. destruct (Z_lt_ge_dec a b) as [|Hge]; [assumption|].
  pose proof (bpow_le b a ltac:(lia)). lra.
Qed.

Lemma SFadd_pos_error (mx my : positive) (ex ey : Z) :
  ex <= emax - prec ->
  let x := S754_finite false mx ex in
  let y := S754_finite false my ey in
  (SF2R x + SF2R y < bpow (emax - 1))%R ->
  let z := SFadd prec emax x y in
  SF_finite z = true /\
  (Rabs (SF2R z - (SF2R x + SF2R y)) <= u64 * (SF2R x + SF2R y) + eta64)%R.
Proof.
  intros Hex x y Hlt z. subst x y z. cbn [SFadd SF2R signR cond_Zopp] in *.
  rewrite !Rmult_1_l in *.
  set (ez := Z.min ex ey).
  pose proof (shl_align_value mx ex ez) as Hx.
  pose proof (shl_align_value my ey ez) as Hy.
  destruct (shl_align mx ex ez) as [mx' ex'].
  destruct (shl_align my ey ez) as [my' ey'].
  destruct Hx as (Hx & _ & Hex'). destruct Hy as (Hy & _ & Hey').
  rewrite (Hex' ltac:(unfold ez; lia)) in Hx.
  rewrite (Hey' ltac:(unfold ez; lia)) in Hy.
  cbn [fst]. change (Zpos mx' + Zpos my') with (Zpos (mx' + my')).
  cbn [binary_normalize]. unfold binary_round.
  set (M := (mx' + my')%positive).
  assert (HM : (IZR (Zpos M) * bpow ez
                = IZR (Zpos mx) * bpow ex + IZR (Zpos my) * bpow ey)%R).
  { unfold M. rewrite Pos2Z.inj_add, plus_IZR, <- Hx, <- Hy. ring. }
  pose proof (shl_align_value M ez (fexp prec emax (Zpos (digits2_pos M) + ez)))
    as Hz.
  destruct (shl_align M ez _) as [mz ez'].
  destruct Hz as (Hz & Hez' & _).
  rewrite <- HM, <- Hz in *.
  destruct (binary_round_aux_error false mz ez') as (Hfin & _ & Herr).
  - unfold ez in Hez'. lia.
  - pose proof (digits2_pos_bounds mz) as [Hd _].
    apply IZR_le in Hd. rewrite <- bpow_IZR in Hd by lia.
    pose proof (bpow_pos ez').
    assert (Hb : (bpow (Zpos (digits2_pos mz) - 1 + ez') < bpow (emax - 1))%R).
    { rewrite bpow_add. nra. }
    apply bpow_lt_inv in Hb. rewrite fexp_eq. unfold emax, prec in *. lia.
  - cbn [signR] in Herr. rewrite Rmult_1_l in Herr. split; assumption.
Qed.

(** *** Sums of non-negative floats *)

Lemma SF_nonneg_cases (x : spec_float) :
  SF_finite x = true -> (0 <= SF2R x)%R ->
  (exists s, x = S754_zero s) \/ (exists m e, x = S754_finite false m e).
Proof.
  destruct x as [s|s| |[|] m e]; try discriminate; eauto.
  intros _. cbn [SF2R signR]. intros H. exfalso.
  pose proof (bpow_pos e). assert (0 < IZR (Zpos m))%R by (apply IZR_lt; lia).
  nra.
Qed.

(** The float sum of two finite non-negative floats far from overflow. *)
Lemma add_nonneg_error (a b : float) :
  SF_finite (Prim2SF a) = true -> SF_finite (Prim2SF b) = true ->
  (0 <= F2R a)%R -> (0 <= F2R b)%R ->
  (F2R a + F2R b < bpow (emax - 1))%R ->
  SF_finite (Prim2SF (a + b)) = true /\
  (Rabs (F2R (a + b) - (F2R a + F2R b)) <= u64 * (F2R a + F2R b) + eta64)%R.
Proof.
  unfold F2R. intros Hfa Hfb Ha Hb Hlt. rewrite add_spec. unfold SF64add.
  pose proof (Prim2SF_valid a) as Hva.
  pose proof (bpow_pos (-53)) as Hu. pose proof (bpow_pos (-1075)) as Heta.
  fold u64 in Hu. fold eta64 in Heta.
  destruct (SF_nonneg_cases _ Hfa Ha) as [[sa Ea] | (ma & ea & Ea)];
    destruct (SF_nonneg_cases _ Hfb Hb) as [[sb Eb] | (mb & eb & Eb)];
    rewrite Ea, Eb in *.
  - destruct sa, sb; cbn [SFadd SF_finite SF2R];
      (split; [reflexivity|]);
      replace (0 - (0 + 0))%R with 0%R by ring; rewrite Rabs_R0; lra.
  - cbn [SFadd SF_finite]. split; [reflexivity|].
    cbn [SF2R] in *.
    match goal with |- (Rabs ?x <= _)%R => replace x with 0%R by ring end.
    rewrite Rabs_R0. nra.
  - cbn [SFadd SF_finite]. split; [reflexivity|].
    cbn [SF2R] in *.
    match goal with |- (Rabs ?x <= _)%R => replace x with 0%R by ring end.
    rewrite Rabs_R0. nra.
  - apply SFadd_pos_error; [|exact Hlt].
    cbn [valid_binary] in Hva. unfold bounded in Hva.
    apply andb_true_iff in Hva. destruct Hva as [_ Hle].
    now apply Z.leb_le in Hle.
Qed.

(** *** Numbers *)

Lemma Rabs_bounds (x b : R) : (Rabs x <= b)%R -> (- b <= x <= b)%R.
Proof. unfold Rabs. destruct (Rcase_abs x); lra. Qed.

Lemma bpow_shift (k : Z) (c : Z) :
  0 <= c -> bpow (k + c) = (IZR (2 ^ c) * bpow k)%R.
Proof. intros Hc. rewrite bpow_add, (bpow_IZR c) by exact Hc. ring. Qed.

Lemma eta64_le_u64 : (eta64 <= u64)%R.
Proof. apply bpow_le. lia. Qed.

Lemma u64_small : (0 < u64 <= / 1024)%R.
Proof.
  split; [apply bpow_pos|].
  apply Rle_trans with (bpow (-10)); [apply bpow_le; lia|].
  unfold bpow. simpl. lra.
Qed.

Lemma ulp_100 : bpow (-46) = (128 * u64)%R.
Proof. exact (bpow_shift (-53) 7 ltac:(lia)). Qed.

Lemma two_ulp_100 : bpow (-45) = (256 * u64)%R.
Proof. exact (bpow_shift (-53) 8 ltac:(lia)). Qed.

Lemma bpow_44 : bpow (-44) = (512 * u64)%R.
Proof. exact (bpow_shift (-53) 9 ltac:(lia)). Qed.

Lemma bpow_43 : bpow (-43) = (1024 * u64)%R.
Proof. exact (bpow_shift (-53) 10 ltac:(lia)). Qed.

Lemma big_enough : (128 <= bpow (emax - 1))%R.
Proof.
  apply Rle_trans with (bpow 7); [|apply bpow_le; unfold emax; lia].
  rewrite bpow_IZR by lia. change (2 ^ 7) with 128. lra.
Qed.

(** The two percentages against the exact sum of the probabilities. *)
Lemma percentages_error (p0 p1 : float) :
  is_probability p0 = true -> is_probability p1 = true ->
  let s := (F2R p0 + F2R p1)%R in
  (Rabs (F2R (p1 * 100) + F2R (p0 * 100) - 100 * s)
   <= 100 * u64 * s + 2 * eta64)%R.
Proof.
  intros H0 H1 s. subst s.
  destruct (times_100_error p0 H0) as (_ & _ & E0).
  destruct (times_100_error p1 H1) as (_ & _ & E1).
  apply Rabs_bounds in E0, E1. apply Rabs_le. lra.
Qed.

(** The float sum of the two percentages against their exact sum. *)
Lemma percentages_float_sum (p0 p1 : float) :
  is_probability p0 = true -> is_probability p1 = true ->
  (F2R (p1 * 100) + F2R (p0 * 100) <= 101)%R ->
  SF_finite (Prim2SF (p1 * 100 + p0 * 100)) = true /\
  (Rabs (F2R (p1 * 100 + p0 * 100) - (F2R (p1 * 100) + F2R (p0 * 100)))
   <= 102 * u64)%R.
Proof.
  intros H0 H1 Hle.
  destruct (times_100_error p0 H0) as (F0 & N0 & _).
  destruct (times_100_error p1 H1) as (F1 & N1 & _).
  destruct (add_nonneg_error (p1 * 100) (p0 * 100) F1 F0 N1 N0) as [Hfin H].
  { pose proof big_enough. lra. }
  split; [exact Hfin|].
  pose proof eta64_le_u64. pose proof u64_small.
  apply Rle_trans with (1 := H). nra.
Qed.

Lemma F2R_probability_le_2 (p : float) :
  is_probability p = true -> (F2R p <= 2)%R.
Proof.
  intros [[s Hp] | (m & e & Hp & He & Hd)]%is_probability_SF; unfold F2R;
    rewrite Hp; cbn [SF2R signR]; [lra|].
  pose proof (digits2_pos_bounds m) as [_ Hm].
  assert (Hm53 : Zpos m <= 2 ^ 53).
  { apply Z.lt_le_incl, Z.lt_le_trans with (1 := Hm).
    apply Z.pow_le_mono_r; lia. }
  apply IZR_le in Hm53. rewrite <- bpow_IZR in Hm53 by lia.
  pose proof (bpow_le e (-52) He) as Hb.
  pose proof (bpow_pos e). pose proof (bpow_pos 53).
  assert (H2 : (bpow 53 * bpow (-52) = 2)%R).
  { rewrite <- bpow_add. exact bpow_1. }
  assert (0 < IZR (Zpos m))%R by (apply IZR_lt; lia).
  rewrite Rmult_1_l.
  apply Rle_trans with (bpow 53 * bpow (-52))%R; [|lra].
  apply Rmult_le_compat; lra.
Qed.

(** A float that compares equal to 1.0 stands for the real number 1. *)
Lemma eqb_one_F2R (x : float) : (x =? 1)%float = true -> F2R x = 1%R.
Proof.
  rewrite FloatAxioms.eqb_spec. unfold F2R.
  change (Prim2SF 1) with (S754_finite false 4503599627370496 (-52)).
  unfold SFeqb, SFcompare.
  destruct (Prim2SF x) as [s|s| |s m e].
  - intros H; discriminate H.
  - destruct s; intros H; discriminate H.
  - intros H; discriminate H.
  - destruct s; [intros H; discriminate H|].
    destruct (Z.compare_spec e (-52)) as [->|Hlt|Hgt];
      [|intros H; discriminate H..].
    rewrite Pos.compare_cont_spec. cbn [Pos.switch_Eq].
    destruct (Pos.compare_spec m 4503599627370496) as [->|Hlt|Hgt];
      [|intros H; discriminate H..].
    intros _. cbn [SF2R signR].
    change 4503599627370496 with (2 ^ 52). rewrite <- bpow_IZR by lia.
    rewrite Rmult_1_l. exact (bpow_opp 52).
Qed.

End Binary64.


Import Binary64.

(** ** Stepping through the script *)

Lemma loaded_cached (ss : Session) (model : Classifier) :
  cached_model ss = Some model -> loaded ss model = ss.
Proof. destruct ss as [c rc]; simpl; intros ->; reflexivity. Qed.

Lemma load_model_serving (w : World) (ss : Session) (model : Classifier)
  (t : list event) :
  serving w ss model ->
  load_model w {| session := ss; trace := t |}
  = (Done model, {| session := loaded ss model; trace := t ++ load_events ss |}).
Proof.
  intros [Hc | (Hc & Hload & Hcls)];
    unfold load_model, load_model_body, load_events, bind, get_session, call,
           emit, put_session, ret, classes_ok; simpl; rewrite Hc.
  - now rewrite loaded_cached, app_nil_r.
  - rewrite Hload; simpl. rewrite Hcls; simpl. reflexivity.
Qed.

Lemma rerun_serving (w : World) (i : Inputs) (ss : Session) (model : Classifier) :
  serving w ss model ->
  rerun w i ss
  = finish ((if button i then on_button w model i else ret tt) (at_form ss model)).
Proof.
  intros Hs. unfold rerun, script, bind at 1 2. unfold emit at 1. simpl.
  rewrite (load_model_serving w ss model _ Hs). unfold bind, emit, at_form; simpl.
  rewrite <- app_assoc. simpl.
  destruct ((if button i then on_button w model i else ret tt) _)
    as [[[]|e|] s]; simpl; rewrite <- ?app_assoc; reflexivity.
Qed.

Section Submission.

Variables (w : World) (i : Inputs) (ss : Session) (model : Classifier).
Hypothesis Hserving : serving w ss model.
Hypothesis Hbutton : button i = true.

Lemma rerun_prediction_fails (e : exn) :
  (predict_proba model (features i) = Throws e \/
   exists rows, predict_proba model (features i) = Returns rows /\
     (first_row rows = Throws e \/
      exists proba_array, first_row rows = Returns proba_array /\
        interpret_proba proba_array = Throws e)) ->
  rerun w i ss
  = (Stopped,
     until_predict i ss ++ [StError ("预测过程出现异常：" ++ str e)],
     loaded ss model).
Proof.
  intros H. rewrite (rerun_serving w i ss model Hserving), Hbutton.
  unfold on_button, try_except, predict_block, bind, call, emit, lift,
    predict_handler, st_error, st_stop, raise, ret, at_form, until_predict;
    simpl.
  destruct H as [-> | (rows & -> & H)]; simpl;
    [|destruct H as [-> | (pa & -> & H)]; simpl; [|rewrite H; simpl]];
    rewrite <- !app_assoc; reflexivity.
Qed.

Variables (rows : list (list float)) (proba_array : list float)
          (r : PredictionResult).
Hypothesis Hrows : predict_proba model (features i) = Returns rows.
Hypothesis Hfirst : first_row rows = Returns proba_array.
Hypothesis Hresult : interpret_proba proba_array = Returns r.

Lemma on_button_predicted :
  on_button w model i (at_form ss model)
  = shap_block w model i (predicted_class r)
      {| session := loaded ss model; trace := until_card i ss r |}.
Proof.
  unfold on_button, try_except, predict_block, bind, call, emit, lift, ret,
    at_form, until_card, until_predict; simpl.
  rewrite Hrows; simpl. rewrite Hfirst; simpl. rewrite Hresult; simpl.
  rewrite <- !app_assoc. reflexivity.
Qed.

Lemma rerun_explained (fig : Figure) :
  explain w i model r = Returns fig ->
  rerun w i ss
  = (Done tt,
     until_explainer i ss r ++ [Pyplot fig; Caption; GuideExpander; Footer],
     plotted ss model).
Proof.
  unfold explain. intros H.
  rewrite (rerun_serving w i ss model Hserving), Hbutton, on_button_predicted.
  unfold shap_block, set_rcParams, bind, call, emit, lift, ret, raise,
    get_session, put_session, until_explainer; simpl.
  destruct (TreeExplainer w model (sample_data i)) as [sv|]; [|discriminate].
  simpl. destruct (select_shap_values sv (predicted_class r)); [|discriminate].
  simpl. rewrite H. simpl. rewrite <- !app_assoc. reflexivity.
Qed.

Lemma rerun_explanation_fails (e : exn) :
  explain w i model r = Throws e ->
  rerun w i ss = (Raised e, until_explainer i ss r, plotted ss model).
Proof.
  unfold explain. intros H.
  rewrite (rerun_serving w i ss model Hserving), Hbutton, on_button_predicted.
  unfold shap_block, set_rcParams, bind, call, emit, lift, ret, raise,
    get_session, put_session, until_explainer; simpl.
  destruct (TreeExplainer w model (sample_data i)) as [sv|e'];
    [|injection H as ->; reflexivity].
  simpl. destruct (select_shap_values sv (predicted_class r));
    [|injection H as ->; reflexivity].
  simpl. rewrite H. reflexivity.
Qed.

End Submission.

(** ** An invariant of the page: where result cards come from *)

Lemma cards_sound_snoc (t : list event) (ev : event) :
  cards_sound t ->
  (forall r, ev = ResultCard r ->
     exists proba_array, interpret_proba proba_array = Returns r) ->
  cards_sound (t ++ [ev]).
Proof.
  intros Ht Hev r [H | [H | []]]%in_app_or; [exact (Ht r H) | exact (Hev r H)].
Qed.

Lemma keeps_ret {A} (a : A) : keeps (ret a).
Proof. intros s H; exact H. Qed.

Lemma keeps_raise {A} (e : exn) : keeps (@raise A e).
Proof. intros s H; exact H. Qed.

Lemma keeps_stop {A} : keeps (@st_stop A).
Proof. intros s H; exact H. Qed.

Lemma keeps_get_session : keeps get_session.
Proof. intros s H; exact H. Qed.

Lemma keeps_put_session (ss : Session) : keeps (put_session ss).
Proof. intros s H; exact H. Qed.

Lemma keeps_emit (ev : event) : plain ev -> keeps (emit ev).
Proof.
  intros Hev s H. simpl. apply cards_sound_snoc; [exact H|].
  intros r ->. destruct Hev.
Qed.

Lemma keeps_bind {A B} (m : App A) (k : A -> App B) :
  keeps m -> (forall a, keeps (k a)) -> keeps (bind m k).
Proof.
  intros Hm Hk s H. unfold bind. specialize (Hm s H).
  destruct (m s) as [[a|e|] s']; simpl in *; [apply Hk|..]; exact Hm.
Qed.

Lemma keeps_try {A} (body : App A) (handler : exn -> App A) :
  keeps body -> (forall e, keeps (handler e)) -> keeps (try_except body handler).
Proof.
  intros Hb Hh s H. unfold try_except. specialize (Hb s H).
  destruct (body s) as [[a|e|] s']; simpl in *; [|apply Hh|]; exact Hb.
Qed.

Lemma keeps_lift {A} (r : result A) : keeps (lift r).
Proof. destruct r; [apply keeps_ret | apply keeps_raise]. Qed.

#[local] Hint Resolve keeps_ret keeps_raise keeps_stop keeps_get_session
  keeps_put_session keeps_emit keeps_bind keeps_try keeps_lift : keeps.
#[local] Hint Extern 1 (plain _) => exact I : keeps.

Lemma keeps_call {A} (ev : event) (r : result A) : plain ev -> keeps (call ev r).
Proof. intros Hev. unfold call. destruct r; auto with keeps. Qed.

#[local] Hint Resolve keeps_call : keeps.

Lemma bind_ret {A B} (a : A) (k : A -> App B) : bind (ret a) k = k a.
Proof. reflexivity. Qed.

Lemma bind_raise {A B} (e : exn) (k : A -> App B) : bind (raise e) k = raise e.
Proof. reflexivity. Qed.

(** The one place that puts a card on the page puts a sound one. *)
Lemma keeps_predict_block (model : Classifier) (features : list (list float)) :
  keeps (predict_block model features).
Proof.
  unfold predict_block.
  apply keeps_bind; [auto with keeps|]. intros rows.
  apply keeps_bind; [auto with keeps|]. intros proba_array.
  destruct (interpret_proba proba_array) as [r|e] eqn:Hr; simpl.
  - rewrite bind_ret. apply keeps_bind; [|auto with keeps].
    intros s H. simpl. apply cards_sound_snoc; [exact H|].
    intros r0 [= <-]. eauto.
  - rewrite bind_raise. auto with keeps.
Qed.

#[local] Hint Resolve keeps_predict_block : keeps.

Lemma keeps_script (w : World) (i : Inputs) : keeps (script w i).
Proof.
  unfold script, load_model, load_model_body, on_button, predict_handler,
    shap_block, set_rcParams, st_error.
  repeat first
    [ apply keeps_predict_block
    | apply keeps_try; [|intros ?]
    | apply keeps_bind; [|intros ?]
    | match goal with
      | |- keeps (match ?x with _ => _ end) => destruct x
      | |- keeps (if ?x then _ else _) => destruct x
      end
    | solve [auto with keeps] ].
Qed.

Lemma rerun_cards (w : World) (i : Inputs) (ss : Session) (r : PredictionResult) :
  In (ResultCard r) (trace_of (rerun w i ss)) ->
  exists proba_array, interpret_proba proba_array = Returns r.
Proof.
  unfold trace_of, rerun.
  pose proof (@keeps_script w i {| session := ss; trace := [] |}) as H.
  destruct (script w i _) as [o s]. simpl in *.
  apply H. intros r0 [].
Qed.

(** A run whose artifact fails the label check. *)
Lemma rerun_label_mismatch
  (w : World) (i : Inputs) (ss : Session) (model : Classifier) :
  cached_model ss = None ->
  joblib_load w = Returns model ->
  classes_ model <> [0; 1]%Z ->
  rerun w i ss
  = (Stopped,
     [PageStyle; CallJoblibLoad;
      StError "模型类别定义异常，请确认训练标签顺序应为[0, 1]！"],
     ss).
Proof.
  intros Hc Hload Hcls.
  unfold rerun, script, load_model, load_model_body, classes_ok, bind,
    get_session, call, emit, st_error, st_stop, ret; simpl.
  rewrite Hc, Hload; simpl.
  destruct (list_eq_dec Z.eq_dec (classes_ model) [0; 1]%Z) as [E|_];
    [contradiction|].
  simpl. destruct ss; reflexivity.
Qed.

(** ** The figure *)

Lemma color_of_red_iff (val : float) :
  color_of val = "#ff6b6b" <-> (0 <? val)%float = true.
Proof. unfold color_of. destruct (0 <? val)%float; split; congruence. Qed.

Lemma in_combine_map {A B} (f : A -> B) (l : list A) (x : A) (y : B) :
  In (x, y) (combine l (map f l)) -> y = f x.
Proof.
  induction l as [|a l IH]; simpl; [tauto|].
  intros [[= <- <-] | H]; [reflexivity | exact (IH H)].
Qed.

Lemma barh_bars (y_pos : list nat) (widths : list float) (bs : list Bar) (b : Bar) :
  barh y_pos widths (map color_of widths) = Returns bs ->
  In b bs ->
  In (bar_width b) widths /\ bar_color b = color_of (bar_width b).
Proof.
  unfold barh. destruct (_ =? _)%nat.
  - intros [= <-] [[y [v c]] [<- H]]%in_map_iff. cbn [bar_width bar_color].
    apply in_combine_r in H.
    split; [exact (in_combine_l _ _ _ _ H) | exact (in_combine_map _ _ _ _ H)].
  - destruct widths as [|v [|]]; simpl; try discriminate.
    intros [= <-] [y [<- _]]%in_map_iff; simpl. auto.
Qed.

(** Every bar of a rendered figure shows one of the values handed to
    [render], coloured by that value. *)
Lemma render_bars (vals : list float) (fig : Figure) (b : Bar) :
  render vals = Returns fig ->
  In b (bars fig) ->
  In (bar_width b) vals /\ bar_color b = color_of (bar_width b).
Proof.
  unfold render.
  destruct (barh _ vals _) as [bs|] eqn:E; [|discriminate].
  intros [= <-]. cbn [bars]. exact (@barh_bars _ _ _ _ E).
Qed.

(** With one value per feature, bar [k] and label [k] show value [k]. *)
Lemma render_six (vals : list float) :
  List.length vals = List.length feature_ranges ->
  exists fig,
    render vals = Returns fig /\
    map bar_y (bars fig) = [0; 1; 2; 3; 4; 5]%nat /\
    map bar_width (bars fig) = vals /\
    map bar_color (bars fig) = map color_of vals /\
    map text_y (labels fig) = [0; 1; 2; 3; 4; 5]%nat /\
    map text_name (labels fig) = display_names /\
    map text_value (labels fig) = vals /\
    yaxis_inverted fig = false.
Proof.
  destruct vals as [|v0 [|v1 [|v2 [|v3 [|v4 [|v5 [|]]]]]]]; try discriminate.
  intros _. eexists. split; [reflexivity|]. repeat split.
Qed.

(** A rendered figure always has one bar per feature, at heights 0..5;
    it was drawn from six values, or from one value repeated six times. *)
Lemma render_heights (vals : list float) (fig : Figure) :
  render vals = Returns fig ->
  map bar_y (bars fig) = [0; 1; 2; 3; 4; 5]%nat /\
  yaxis_inverted fig = false /\
  (List.length vals = 6%nat \/ List.length vals = 1%nat).
Proof.
  unfold render, barh.
  destruct (_ =? _)%nat eqn:E.
  - apply Nat.eqb_eq in E.
    destruct vals as [|v0 [|v1 [|v2 [|v3 [|v4 [|v5 [|]]]]]]]; try discriminate E.
    intros [= <-]. repeat split. now left.
  - destruct vals as [|v [|]]; simpl; try discriminate.
    intros [= <-]. repeat split. now right.
Qed.

Lemma heights_bottom_to_top (fig : Figure) :
  map bar_y (bars fig) = [0; 1; 2; 3; 4; 5]%nat ->
  yaxis_inverted fig = false ->
  reads_bottom_to_top fig.
Proof.
  intros Hy Hinv a b ba bb Hab Ha Hb. unfold drawn_above. rewrite Hinv.
  apply (map_nth_error bar_y) in Ha, Hb. rewrite Hy in Ha, Hb.
  apply Nat.ltb_lt.
  do 6 (destruct a as [|a]; [do 6 (destruct b as [|b];
        [simpl in *; try lia; injection Ha as <-; injection Hb as <-; lia|]);
        destruct b; discriminate|]).
  destruct a; discriminate.
Qed.

(** ** A submission whose prediction succeeded *)

Section Predicted.

Variables (w : World) (i : Inputs) (ss : Session) (model : Classifier).
Variables (rows : list (list float)) (proba_array : list float).
Variable r : PredictionResult.
Hypothesis Hserving : serving w ss model.
Hypothesis Hbutton : button i = true.
Hypothesis Hrows : predict_proba model (features i) = Returns rows.
Hypothesis Hfirst : first_row rows = Returns proba_array.
Hypothesis Hresult : interpret_proba proba_array = Returns r.

Lemma until_explainer_events (ev : event) :
  In ev (until_explainer i ss r) ->
  ev = PageStyle \/ ev = CallJoblibLoad \/ ev = PageTitle \/ ev = InputForm \/
  ev = CallPredictProba (features i) \/ ev = ResultCard r \/
  ev = CallTreeExplainer (sample_data i).
Proof.
  unfold until_explainer, until_card, until_predict, load_events.
  destruct (cached_model ss); simpl; intuition auto.
Qed.

Lemma card_shown : In (ResultCard r) (until_explainer i ss r).
Proof.
  unfold until_explainer, until_card.
  apply in_or_app; left. apply in_or_app; right. left. reflexivity.
Qed.

(** The run either completes with the figure [explain] computes, or ends
    with the exception [explain] raises. *)
Lemma rerun_after_prediction :
  rerun w i ss
  = match explain w i model r with
    | Returns fig =>
        (Done tt,
         until_explainer i ss r ++ [Pyplot fig; Caption; GuideExpander; Footer],
         plotted ss model)
    | Throws e => (Raised e, until_explainer i ss r, plotted ss model)
    end.
Proof.
  destruct (explain w i model r) as [fig|e] eqn:E.
  - exact (rerun_explained w i ss model Hserving Hbutton rows proba_array r
             Hrows Hfirst Hresult fig E).
  - exact (rerun_explanation_fails w i ss model Hserving Hbutton rows
             proba_array r Hrows Hfirst Hresult e E).
Qed.

Lemma rerun_figure (fig : Figure) :
  In (Pyplot fig) (trace_of (rerun w i ss)) ->
  explain w i model r = Returns fig.
Proof.
  assert (Hno : ~ In (Pyplot fig) (until_explainer i ss r)).
  { intros H%until_explainer_events.
    repeat (destruct H as [H | H]; [discriminate H|]). discriminate H. }
  rewrite rerun_after_prediction.
  destruct (explain w i model r) as [fig'|e]; unfold trace_of; cbn [fst snd];
    [|intros H; contradiction].
  intros [H | H]%in_app_or; [contradiction|].
  destruct H as [[= ->] | H]; [reflexivity|].
  repeat (destruct H as [H | H]; [discriminate H|]). destruct H.
Qed.

End Predicted.

(** The labels print the values handed to [render], in their order. *)
Lemma render_label_values (vals : list float) (fig : Figure) :
  render vals = Returns fig -> map text_value (labels fig) = vals.
Proof.
  unfold render, barh.
  destruct (_ =? _)%nat eqn:E.
  - apply Nat.eqb_eq in E.
    destruct vals as [|v0 [|v1 [|v2 [|v3 [|v4 [|v5 [|]]]]]]]; try discriminate E.
    intros [= <-]. reflexivity.
  - destruct vals as [|v [|]]; simpl; try discriminate.
    intros [= <-]. reflexivity.
Qed.

Lemma in_negate (vals : list float) (v : float) :
  In v (negate vals) -> exists score, In score vals /\ v = (- score)%float.
Proof.
  intros [score [<- H]]%in_map_iff. eauto.
Qed.

(** ** Reruns in one session *)

Lemma classes_ok_true (model : Classifier) :
  classes_ok model = true -> classes_ model = [0; 1]%Z.
Proof.
  unfold classes_ok. now destruct (list_eq_dec Z.eq_dec (classes_ model) [0; 1]%Z).
Qed.

Lemma effective_serving (w : World) (ss : Session) (model : Classifier) :
  effective w ss = Done model -> serving w ss model.
Proof.
  unfold effective, serving.
  destruct (cached_model ss) as [m|]; [intros [= ->]; now left|].
  destruct (joblib_load w) as [m|e]; [|discriminate].
  destruct (classes_ok m) eqn:E; [|discriminate].
  intros [= <-]. right. auto using classes_ok_true.
Qed.

Lemma page_until_predict (i : Inputs) (ss : Session) :
  page (until_predict i ss) = form_page.
Proof. unfold until_predict, load_events. now destruct (cached_model ss). Qed.

Lemma page_app (t1 t2 : list event) : page (t1 ++ t2) = page t1 ++ page t2.
Proof. apply filter_app. Qed.

Lemma page_until_explainer (i : Inputs) (ss : Session) (r : PredictionResult) :
  page (until_explainer i ss r) = form_page ++ [ResultCard r].
Proof.
  unfold until_explainer, until_card.
  now rewrite !page_app, page_until_predict.
Qed.

(** A served submission shows [submission_view] and leaves the classifier
    in the cache. *)
Lemma rerun_served (w : World) (i : Inputs) (ss : Session) (model : Classifier) :
  serving w ss model ->
  visible (rerun w i ss) = submission_view w i model /\
  cached_model (session_of (rerun w i ss)) = Some model.
Proof.
  intros Hs. unfold submission_view.
  destruct (button i) eqn:Hb.
  - destruct (predict_proba model (features i)) as [rows|e] eqn:Hrows.
    2:{ rewrite (rerun_prediction_fails w i ss model Hs Hb e) by now left.
        unfold visible, outcome_of, trace_of, session_of; cbn [fst snd].
        now rewrite page_app, page_until_predict. }
    destruct (first_row rows) as [proba_array|e] eqn:Hfirst.
    2:{ rewrite (rerun_prediction_fails w i ss model Hs Hb e)
          by (right; exists rows; auto).
        unfold visible, outcome_of, trace_of, session_of; cbn [fst snd].
        now rewrite page_app, page_until_predict. }
    destruct (interpret_proba proba_array) as [r|e] eqn:Hres.
    2:{ rewrite (rerun_prediction_fails w i ss model Hs Hb e)
          by (right; exists rows; split; [|right; exists proba_array]; auto).
        unfold visible, outcome_of, trace_of, session_of; cbn [fst snd].
        now rewrite page_app, page_until_predict. }
    rewrite (rerun_after_prediction w i ss model rows proba_array r
               Hs Hb Hrows Hfirst Hres).
    destruct (explain w i model r) as [fig|e];
      unfold visible, outcome_of, trace_of, session_of; cbn [fst snd];
      rewrite ?page_app, page_until_explainer; split; reflexivity.
  - rewrite (rerun_serving w i ss model Hs), Hb.
    unfold visible, outcome_of, trace_of, session_of, at_form, load_events.
    destruct (cached_model ss); split; reflexivity.
Qed.

(** What a run shows is decided by [effective], and a run does not change
    what [effective] is. *)
Lemma rerun_view (w : World) (i : Inputs) (ss : Session) :
  visible (rerun w i ss) = view w i (effective w ss) /\
  effective w (session_of (rerun w i ss)) = effective w ss.
Proof.
  destruct (effective w ss) as [model|e|] eqn:E.
  - destruct (rerun_served w i ss model (effective_serving w ss model E))
      as [Hv Hc].
    split; [exact Hv|]. unfold effective at 1. now rewrite Hc.
  - revert E. unfold effective.
    destruct (cached_model ss) eqn:Hc; [discriminate|].
    destruct (joblib_load w) as [m|e'] eqn:Hload;
      [destruct (classes_ok m); discriminate|].
    intros [= ->].
    assert (Hrun : rerun w i ss = (Raised e, [PageStyle; CallJoblibLoad], ss)).
    { unfold rerun, script, load_model, load_model_body, bind, get_session,
        call, emit, raise; simpl. rewrite Hc, Hload. simpl.
      destruct ss; reflexivity. }
    rewrite Hrun. split; [reflexivity|].
    unfold session_of; cbn [snd]. now rewrite Hc.
  - revert E. unfold effective.
    destruct (cached_model ss) eqn:Hc; [discriminate|].
    destruct (joblib_load w) as [m|e'] eqn:Hload; [|discriminate].
    destruct (classes_ok m) eqn:Hok; [discriminate|]. intros _.
    assert (Hne : classes_ m <> [0; 1]%Z).
    { intros H. unfold classes_ok in Hok. rewrite H in Hok. discriminate Hok. }
    rewrite (rerun_label_mismatch w i ss m Hc Hload Hne).
    split; [reflexivity|].
    unfold session_of; cbn [snd]. now rewrite Hc.
Qed.

Lemma effective_session_after (w : World) (history : list Inputs) (ss : Session) :
  effective w (session_after w history ss) = effective w ss.
Proof.
  revert ss. induction history as [|i history IH]; intros ss; [reflexivity|].
  simpl. rewrite IH. exact (proj2 (rerun_view w i ss)).
Qed.

(** * Part IV: the claims *)

(** C1.  Whatever the collaborators answer and whatever the session holds,
    every result card a run shows has predicted class 1 exactly when
    [50 <= probability_positive] holds in binary64, and class 0 otherwise;
    a card whose percentage is exactly 50.0 has class 1. *)
Theorem predicted_class_iff_threshold
  (w : World) (i : Inputs) (ss : Session) (r : PredictionResult) :
  In (ResultCard r) (trace_of (rerun w i ss)) ->
  (predicted_class r = 1%Z <-> (50 <=? probability_positive r)%float = true) /\
  (predicted_class r = 0%Z <-> (50 <=? probability_positive r)%float = false) /\
  (probability_positive r = 50%float -> predicted_class r = 1%Z).
Proof.
  intros [proba_array Hr]%rerun_cards.
  destruct proba_array as [|p0 [|p1 [|]]]; try discriminate Hr.
  injection Hr as <-. unfold make_result; simpl.
  repeat split; try (destruct (50 <=? p1 * 100)%float; congruence).
  intros ->. reflexivity.
Qed.

(** C1, at an input: the classifier answers [0.5, 0.5], the percentage is
    exactly 50.0 and the class shown is 1. *)
Lemma predicted_class_iff_threshold_witness :
  In (ResultCard (make_result 0.5 0.5))
     (trace_of (rerun (Sample.world_of Sample.even_model) Sample.defaults fresh)) /\
  probability_positive (make_result 0.5 0.5) = 50%float /\
  predicted_class (make_result 0.5 0.5) = 1%Z.
Proof.
  assert (H : In (ResultCard (make_result 0.5 0.5))
     (trace_of (rerun (Sample.world_of Sample.even_model) Sample.defaults fresh))).
  { vm_compute. do 5 right. left. reflexivity. }
  split; [exact H|]. split; [reflexivity|].
  exact (proj2 (proj2 (predicted_class_iff_threshold _ _ _ _ H)) eq_refl).
Defined.

(** C2.  On a cache miss with a loadable artifact: when the label list of
    the classifier is not [[0; 1]] the run shows the configuration error
    and stops right after the load (no title, no form, no call to the
    classifier or the explainer), and nothing is cached; when the list is
    [[0; 1]], [load_model] returns the classifier, caches it, and the run
    goes on to the form and the button handler. *)
Theorem load_model_label_gate
  (w : World) (i : Inputs) (ss : Session) (model : Classifier) :
  cached_model ss = None ->
  joblib_load w = Returns model ->
  (classes_ model <> [0; 1]%Z ->
   rerun w i ss
   = (Stopped,
      [PageStyle; CallJoblibLoad;
       StError "模型类别定义异常，请确认训练标签顺序应为[0, 1]！"],
      ss)) /\
  (classes_ model = [0; 1]%Z ->
   (forall t,
      load_model w {| session := ss; trace := t |}
      = (Done model,
         {| session := loaded ss model; trace := t ++ [CallJoblibLoad] |})) /\
   rerun w i ss
   = finish ((if button i then on_button w model i else ret tt)
               {| session := loaded ss model;
                  trace := [PageStyle; CallJoblibLoad; PageTitle; InputForm] |})).
Proof.
  intros Hc Hload. split; intros Hcls.
  - exact (rerun_label_mismatch w i ss model Hc Hload Hcls).
  - assert (Hs : serving w ss model) by (right; auto).
    split.
    + intros t. rewrite (load_model_serving w ss model t Hs).
      unfold load_events. now rewrite Hc.
    + rewrite (rerun_serving w i ss model Hs). unfold at_form, load_events.
      now rewrite Hc.
Qed.

(** C2, at an input: an artifact with labels [[1; 0]] stops the run before
    the form. *)
Lemma load_model_label_gate_witness :
  rerun (Sample.world_of Sample.swapped_model) Sample.defaults fresh
  = (Stopped,
     [PageStyle; CallJoblibLoad;
      StError "模型类别定义异常，请确认训练标签顺序应为[0, 1]！"],
     fresh).
Proof.
  refine (proj1 (load_model_label_gate (Sample.world_of Sample.swapped_model)
                   Sample.defaults fresh _ eq_refl eq_refl) _).
  simpl. discriminate.
Defined.

(** C3.  In a submission whose classifier answers with a first row whose
    length is not 2, the length check raises the shape error, the handler
    shows it and stops the run, and no event of the explanation stage (call
    to the explainer, chart, caption) occurs. *)
Theorem wrong_length_stops_before_explanation
  (w : World) (i : Inputs) (ss : Session) (model : Classifier)
  (rows : list (list float)) (proba_array : list float) :
  serving w ss model ->
  button i = true ->
  predict_proba model (features i) = Returns rows ->
  first_row rows = Returns proba_array ->
  List.length proba_array <> 2%nat ->
  interpret_proba proba_array = Throws (ValueError "模型输出维度异常") /\
  rerun w i ss
  = (Stopped,
     until_predict i ss ++ [StError "预测过程出现异常：模型输出维度异常"],
     loaded ss model) /\
  existsb explanation_event (trace_of (rerun w i ss)) = false.
Proof.
  intros Hs Hb Hrows Hfirst Hlen.
  assert (Hraise : interpret_proba proba_array
                   = Throws (ValueError "模型输出维度异常")).
  { destruct proba_array as [|p0 [|p1 [|]]]; simpl in *;
      try reflexivity; contradiction. }
  assert (Hrun : rerun w i ss
    = (Stopped,
       until_predict i ss ++ [StError "预测过程出现异常：模型输出维度异常"],
       loaded ss model)).
  { apply (rerun_prediction_fails w i ss model Hs Hb
             (ValueError "模型输出维度异常")).
    right. exists rows. split; [exact Hrows|].
    right. exists proba_array. split; assumption. }
  repeat split; [exact Hraise | exact Hrun |].
  rewrite Hrun. unfold trace_of, until_predict, load_events; simpl.
  destruct (cached_model ss); reflexivity.
Qed.

(** C3, at an input: a classifier that answers with three probabilities. *)
Lemma wrong_length_stops_before_explanation_witness :
  rerun (Sample.world_of Sample.three_class_model) Sample.defaults fresh
  = (Stopped,
     [PageStyle; CallJoblibLoad; PageTitle; InputForm;
      CallPredictProba (features Sample.defaults);
      StError "预测过程出现异常：模型输出维度异常"],
     loaded fresh Sample.three_class_model).
Proof.
  refine (proj1 (proj2 (@wrong_length_stops_before_explanation
    (Sample.world_of Sample.three_class_model) Sample.defaults
    fresh Sample.three_class_model
    [[0.25; 0.25; 0.5]%float] [0.25; 0.25; 0.5]%float
    _ eq_refl eq_refl eq_refl _))).
  - right. repeat split.
  - simpl. discriminate.
Defined.

(** C4.  Let the classifier's row be two binary64 probabilities [p0] and
    [p1] (each between 0.0 and 1.0 in the float order).  The two
    percentages computed on lines 206-207 are finite and not negative.
    When the real numbers [p0] and [p1] stand for sum to exactly 1, the
    percentages sum, as real numbers, to 100 within
    [100 * u64 + 2 * eta64], which is below one unit in the last place of
    100 ([2^-46]); their binary64 sum is finite and within [2^-45] of
    100.  When only the binary64 sum [p0 + p1] equals 1.0, the bounds are
    [2^-44] and [2^-43]. *)
Theorem percentages_sum_to_100 (p0 p1 : float) (r : PredictionResult) :
  interpret_proba [p0; p1] = Returns r ->
  is_probability p0 = true ->
  is_probability p1 = true ->
  let pp := probability_positive r in
  let pn := probability_negative r in
  (SF_finite (Prim2SF pp) = true /\ SF_finite (Prim2SF pn) = true /\
   (0 <= F2R pp)%R /\ (0 <= F2R pn)%R) /\
  ((F2R p0 + F2R p1 = 1)%R ->
   (Rabs (F2R pp + F2R pn - 100) <= 100 * u64 + 2 * eta64)%R /\
   (Rabs (F2R pp + F2R pn - 100) <= bpow (-46))%R /\
   SF_finite (Prim2SF (pp + pn)%float) = true /\
   (Rabs (F2R (pp + pn)%float - 100) <= bpow (-45))%R) /\
  ((p0 + p1 =? 1)%float = true ->
   (Rabs (F2R pp + F2R pn - 100) <= bpow (-44))%R /\
   SF_finite (Prim2SF (pp + pn)%float) = true /\
   (Rabs (F2R (pp + pn)%float - 100) <= bpow (-43))%R).
Proof.
  intros [= <-] H0 H1 pp pn. subst pp pn.
  cbn [make_result probability_positive probability_negative].
  pose proof (percentages_error p0 p1 H0 H1) as Herr. cbv zeta in Herr.
  pose proof (percentages_float_sum p0 p1 H0 H1) as Hsum.
  pose proof eta64_le_u64 as Heta. pose proof u64_small as Hu.
  pose proof (bpow_pos (-1075)) as Heta0. fold eta64 in Heta0.
  pose proof (F2R_probability_nonneg p0 H0) as N0.
  pose proof (F2R_probability_nonneg p1 H1) as N1.
  pose proof (F2R_probability_le_2 p0 H0) as L0.
  pose proof (F2R_probability_le_2 p1 H1) as L1.
  destruct (times_100_error p0 H0) as (F0 & P0 & _).
  destruct (times_100_error p1 H1) as (F1 & P1 & _).
  rewrite ulp_100, two_ulp_100, bpow_44, bpow_43.
  apply Rabs_bounds in Herr.
  split; [repeat split; assumption|]. split.
  - intros Hone. rewrite Hone in Herr.
    assert (Hexact : (Rabs (F2R (p1 * 100) + F2R (p0 * 100) - 100)
                      <= 100 * u64 + 2 * eta64)%R) by (apply Rabs_le; lra).
    split; [exact Hexact|]. split; [lra|].
    pose proof (Rabs_bounds _ _ Hexact) as Hb.
    destruct (Hsum ltac:(lra)) as [Hfin Hs]. split; [exact Hfin|].
    apply Rabs_bounds in Hs. apply Rabs_le. lra.
  - intros Hone%eqb_one_F2R.
    destruct (add_nonneg_error p0 p1) as [_ Hadd].
    + destruct (is_probability_SF p0 H0) as [[s E] | (m & e & E & _)];
        now rewrite E.
    + destruct (is_probability_SF p1 H1) as [[s E] | (m & e & E & _)];
        now rewrite E.
    + exact N0.
    + exact N1.
    + pose proof big_enough. lra.
    + rewrite Hone in Hadd. apply Rabs_bounds in Hadd.
      set (s := (F2R p0 + F2R p1)%R) in *.
      assert (Hsu : (s * u64 <= s / 1024)%R) by nra.
      assert (Hs2 : (s <= 2)%R) by lra.
      assert (Hus : (u64 * s <= 2 * u64)%R) by nra.
      assert (Hs : (Rabs (F2R (p1 * 100) + F2R (p0 * 100) - 100) <= 512 * u64)%R).
      { apply Rabs_le. lra. }
      split; [exact Hs|].
      pose proof (Rabs_bounds _ _ Hs) as Hb.
      destruct (Hsum ltac:(lra)) as [Hfin Hs']. split; [exact Hfin|].
      apply Rabs_bounds in Hs'. apply Rabs_le. lra.
Qed.

(** C4, at an input: the row [0.25, 0.75].  The two probabilities sum to
    1 exactly and in binary64, and the percentages are 75.0 and 25.0. *)
Lemma percentages_sum_to_100_witness :
  (F2R 0.25 + F2R 0.75 = 1)%R /\
  make_result 0.25 0.75
  = {| probability_positive := 75; probability_negative := 25;
       predicted_class := 1; predicted_label := "高风险" |} /\
  (Rabs (F2R (0.75 * 100)%float + F2R (0.25 * 100)%float - 100) <= bpow (-46))%R /\
  (Rabs (F2R (0.75 * 100 + 0.25 * 100)%float - 100) <= bpow (-43))%R.
Proof.
  assert (Hone : (F2R 0.25 + F2R 0.75 = 1)%R).
  { unfold F2R.
    change (Prim2SF 0.25) with (S754_finite false 4503599627370496 (-54)).
    change (Prim2SF 0.75) with (S754_finite false 6755399441055744 (-53)).
    cbn [SF2R signR].
    pose proof (bpow_opp 54) as H1. rewrite (bpow_IZR 54) in H1 by lia.
    change (- (54))%Z with (-54)%Z in H1.
    change (2 ^ 54)%Z with 18014398509481984%Z in H1.
    pose proof (bpow_shift (-54) 1 ltac:(lia)) as H2.
    change (-54 + 1)%Z with (-53)%Z in H2. change (2 ^ 1)%Z with 2%Z in H2.
    rewrite H2. lra. }
  split; [exact Hone|]. split; [reflexivity|].
  pose proof (percentages_sum_to_100 0.25 0.75 (make_result 0.25 0.75)
                eq_refl eq_refl eq_refl) as (_ & HA & HB).
  split.
  - exact (proj1 (proj2 (HA Hone))).
  - exact (proj2 (proj2 (HB eq_refl))).
Defined.


(** C5.  In a submission that shows a chart, every bar width and every
    printed value is the negation of one score of the slice the backend
    returned: negated once, so negating the displayed value gives the
    backend score back.  A backend score below zero is therefore displayed
    above zero and in the risk-increasing colour.  Negating a score vector
    twice returns it unchanged. *)
Theorem scores_negated_once
  (w : World) (i : Inputs) (ss : Session) (model : Classifier)
  (rows : list (list float)) (proba_array : list float) (r : PredictionResult)
  (shap_values : Explanation) (scores : list float) (fig : Figure) :
  serving w ss model ->
  button i = true ->
  predict_proba model (features i) = Returns rows ->
  first_row rows = Returns proba_array ->
  interpret_proba proba_array = Returns r ->
  TreeExplainer w model (sample_data i) = Returns shap_values ->
  select_shap_values shap_values (predicted_class r) = Returns scores ->
  In (Pyplot fig) (trace_of (rerun w i ss)) ->
  (forall b, In b (bars fig) ->
     exists score,
       In score scores /\
       bar_width b = (- score)%float /\
       (- bar_width b)%float = score /\
       bar_color b = color_of (- score) /\
       ((score <? 0)%float = true ->
        (0 <? bar_width b)%float = true /\ bar_color b = "#ff6b6b")) /\
  map text_value (labels fig) = negate scores /\
  negate (map text_value (labels fig)) = scores /\
  negate (negate scores) = scores.
Proof.
  intros Hs Hb Hrows Hfirst Hres Hexpl Hsel Hfig.
  apply (rerun_figure w i ss model rows proba_array r Hs Hb Hrows Hfirst Hres)
    in Hfig.
  unfold explain in Hfig. rewrite Hexpl, Hsel in Hfig.
  rewrite (render_label_values _ _ Hfig), negate_involutive.
  split; [|repeat split].
  intros b Hin. destruct (render_bars _ _ _ Hfig Hin) as [Hw Hc].
  apply in_negate in Hw. destruct Hw as (score & Hscore & Hw).
  exists score. rewrite Hc, Hw.
  repeat split; auto using float_opp_involutive.
  - now apply float_neg_pos.
  - apply color_of_red_iff. now apply float_neg_pos.
Qed.

(** C5, at an input: the default submission against a backend whose
    positive-class slice is [Sample.positive_scores]. *)
Lemma scores_negated_once_witness :
  In (Pyplot Sample.chart)
     (trace_of (rerun (Sample.world_of Sample.even_model) Sample.defaults fresh)) /\
  map bar_width (bars Sample.chart) = [-0.25; 0.5; -0; -0.125; 0.0625; -1]%float /\
  forall b, In b (bars Sample.chart) ->
    exists score, In score Sample.positive_scores /\ (- bar_width b)%float = score.
Proof.
  assert (H : In (Pyplot Sample.chart)
     (trace_of (rerun (Sample.world_of Sample.even_model) Sample.defaults fresh))).
  { vm_compute. do 7 right. left. reflexivity. }
  split; [exact H|]. split; [reflexivity|].
  intros b Hb.
  destruct (proj1 (scores_negated_once
    (Sample.world_of Sample.even_model) Sample.defaults fresh Sample.even_model
    [[0.5; 0.5]%float] [0.5; 0.5]%float (make_result 0.5 0.5)
    Sample.per_class Sample.positive_scores Sample.chart
    (or_intror (conj eq_refl (conj eq_refl eq_refl)))
    eq_refl eq_refl eq_refl eq_refl eq_refl eq_refl H) b Hb)
    as (score & Hin & _ & Hopp & _).
  exists score. split; assumption.
Defined.

(** C6.  In a submission that reaches the explanation stage, the rest of
    the run is decided by one slice of the explanation: the slice at the
    predicted class when the explanation's shape has three dimensions, the
    slice at index 1 otherwise, whatever the predicted class is. *)
Theorem attribution_axis
  (w : World) (i : Inputs) (ss : Session) (model : Classifier)
  (rows : list (list float)) (proba_array : list float) (r : PredictionResult)
  (shap_values : Explanation) :
  serving w ss model ->
  button i = true ->
  predict_proba model (features i) = Returns rows ->
  first_row rows = Returns proba_array ->
  interpret_proba proba_array = Returns r ->
  TreeExplainer w model (sample_data i) = Returns shap_values ->
  let axis := if (List.length (shape shap_values) =? 3)%nat
              then predicted_class r else 1%Z in
  (List.length (shape shap_values) = 3%nat -> axis = predicted_class r) /\
  (List.length (shape shap_values) <> 3%nat -> axis = 1%Z) /\
  select_shap_values shap_values (predicted_class r) = class_slice shap_values axis /\
  rerun w i ss
  = match class_slice shap_values axis with
    | Throws e => (Raised e, until_explainer i ss r, plotted ss model)
    | Returns scores =>
        match render (negate scores) with
        | Throws e => (Raised e, until_explainer i ss r, plotted ss model)
        | Returns fig =>
            (Done tt,
             until_explainer i ss r ++ [Pyplot fig; Caption; GuideExpander; Footer],
             plotted ss model)
        end
    end.
Proof.
  intros Hs Hb Hrows Hfirst Hres Hexpl axis.
  assert (Hsel : select_shap_values shap_values (predicted_class r)
                 = class_slice shap_values axis).
  { unfold select_shap_values, axis. now destruct (_ =? _)%nat. }
  repeat split.
  - intros H. unfold axis. now rewrite H.
  - intros H. unfold axis. apply Nat.eqb_neq in H. now rewrite H.
  - exact Hsel.
  - rewrite (rerun_after_prediction w i ss model rows proba_array r
               Hs Hb Hrows Hfirst Hres).
    unfold explain. rewrite Hexpl, Hsel.
    destruct (class_slice shap_values axis) as [scores|e]; [|reflexivity].
    destruct (render (negate scores)); reflexivity.
Qed.

(** C6, at an input: a three-dimensional explanation and predicted class
    1; the slice read is the one at index 1 and the chart is drawn. *)
Lemma attribution_axis_witness :
  rerun (Sample.world_of Sample.even_model) Sample.defaults fresh
  = (Done tt,
     until_explainer Sample.defaults fresh (make_result 0.5 0.5)
       ++ [Pyplot Sample.chart; Caption; GuideExpander; Footer],
     Sample.warm).
Proof.
  exact (proj2 (proj2 (proj2 (attribution_axis
    (Sample.world_of Sample.even_model) Sample.defaults fresh Sample.even_model
    [[0.5; 0.5]%float] [0.5; 0.5]%float (make_result 0.5 0.5) Sample.per_class
    (or_intror (conj eq_refl (conj eq_refl eq_refl)))
    eq_refl eq_refl eq_refl eq_refl eq_refl)))).
Defined.

(** With a two-dimensional explanation the slice read is the one at index
    1 even though the predicted class is 0. *)
Example flat_explanation_reads_index_one :
  let flat := {| shape := [1; 6]%nat;
                 class_slice := fun k =>
                   if (k =? 1)%Z then Returns Sample.positive_scores
                   else Returns Sample.negative_scores |} in
  predicted_class (make_result 0.75 0.25) = 0%Z /\
  select_shap_values flat (predicted_class (make_result 0.75 0.25))
  = Returns Sample.positive_scores /\
  select_shap_values Sample.per_class (predicted_class (make_result 0.75 0.25))
  = Returns Sample.negative_scores.
Proof. repeat split. Qed.

(** C7, as stated, fails: in the default submission the chart has six bars
    in canonical order, but they do not read from the top downwards.  The
    first feature (Subtype) sits at height 0 and the second (NLR) at height
    1 of an axis that grows upwards, so Subtype is drawn below NLR. *)
Lemma canonical_order_top_to_bottom_counterexample :
  In (Pyplot Sample.chart)
     (trace_of (rerun (Sample.world_of Sample.even_model) Sample.defaults fresh)) /\
  map bar_y (bars Sample.chart) = [0; 1; 2; 3; 4; 5]%nat /\
  map text_name (labels Sample.chart) = display_names /\
  yaxis_inverted Sample.chart = false /\
  drawn_above Sample.chart 0 1 = false /\
  ~ reads_top_to_bottom Sample.chart.
Proof.
  repeat split.
  - vm_compute. do 7 right. left. reflexivity.
  - intros H.
    specialize (H 0%nat 1%nat _ _ (Nat.lt_0_succ 0) eq_refl eq_refl).
    discriminate H.
Qed.

(** C7, amended.  In a submission that reaches the explanation stage, the
    frame handed to the explainer has the six columns Subtype, NLR, IL6,
    CAR, VitD, FT4 in this order, whatever the inputs are.  Every chart
    the run shows has six bars at heights 0 to 5 on an axis that is not
    inverted, so the bars follow their order from the bottom of the chart
    upwards, and the heights do not depend on the scores; the chart was
    drawn from six scores, or from a single score repeated.  When the
    backend returns one score per column, the run completes with a chart
    in which bar [k] has the negated [k]-th score as its width and label
    [k] carries the [k]-th display name at height [k]. *)
Theorem canonical_order_bottom_to_top
  (w : World) (i : Inputs) (ss : Session) (model : Classifier)
  (rows : list (list float)) (proba_array : list float) (r : PredictionResult)
  (shap_values : Explanation) (scores : list float) :
  serving w ss model ->
  button i = true ->
  predict_proba model (features i) = Returns rows ->
  first_row rows = Returns proba_array ->
  interpret_proba proba_array = Returns r ->
  TreeExplainer w model (sample_data i) = Returns shap_values ->
  select_shap_values shap_values (predicted_class r) = Returns scores ->
  columns (sample_data i) = ["Subtype"; "NLR"; "IL6"; "CAR"; "VitD"; "FT4"] /\
  (forall fig, In (Pyplot fig) (trace_of (rerun w i ss)) ->
     map bar_y (bars fig) = [0; 1; 2; 3; 4; 5]%nat /\
     yaxis_inverted fig = false /\
     reads_bottom_to_top fig /\
     (List.length scores = 6%nat \/ List.length scores = 1%nat)) /\
  (List.length scores = List.length (columns (sample_data i)) ->
   exists fig,
     rerun w i ss
     = (Done tt,
        until_explainer i ss r ++ [Pyplot fig; Caption; GuideExpander; Footer],
        plotted ss model) /\
     map bar_width (bars fig) = negate scores /\
     map text_y (labels fig) = [0; 1; 2; 3; 4; 5]%nat /\
     map text_name (labels fig) = display_names /\
     map text_value (labels fig) = negate scores).
Proof.
  intros Hs Hb Hrows Hfirst Hres Hexpl Hsel.
  split; [reflexivity|]. split.
  - intros fig Hfig.
    apply (rerun_figure w i ss model rows proba_array r Hs Hb Hrows Hfirst Hres)
      in Hfig.
    unfold explain in Hfig. rewrite Hexpl, Hsel in Hfig.
    destruct (render_heights _ _ Hfig) as (Hy & Hinv & Hlen).
    rewrite negate_length in Hlen.
    repeat split; auto using heights_bottom_to_top.
  - intros Hlen.
    destruct (render_six (negate scores))
      as (fig & Hfig & _ & Hw & _ & Hty & Hn & Hv & _).
    { rewrite negate_length. exact Hlen. }
    exists fig. repeat split; auto.
    rewrite (rerun_after_prediction w i ss model rows proba_array r
               Hs Hb Hrows Hfirst Hres).
    unfold explain. now rewrite Hexpl, Hsel, Hfig.
Qed.

(** C7 amended, at an input: the default submission. *)
Lemma canonical_order_bottom_to_top_witness :
  reads_bottom_to_top Sample.chart /\
  exists fig,
    rerun (Sample.world_of Sample.even_model) Sample.defaults fresh
    = (Done tt,
       until_explainer Sample.defaults fresh (make_result 0.5 0.5)
         ++ [Pyplot fig; Caption; GuideExpander; Footer],
       Sample.warm) /\
    map bar_width (bars fig) = negate Sample.positive_scores /\
    map text_name (labels fig) = display_names.
Proof.
  pose proof (canonical_order_bottom_to_top
    (Sample.world_of Sample.even_model) Sample.defaults fresh Sample.even_model
    [[0.5; 0.5]%float] [0.5; 0.5]%float (make_result 0.5 0.5)
    Sample.per_class Sample.positive_scores
    (or_intror (conj eq_refl (conj eq_refl eq_refl)))
    eq_refl eq_refl eq_refl eq_refl eq_refl eq_refl) as (_ & Hany & Hsix).
  split.
  - refine (proj1 (proj2 (proj2 (Hany Sample.chart _)))).
    vm_compute. do 7 right. left. reflexivity.
  - destruct (Hsix eq_refl) as (fig & Hrun & Hw & _ & Hn & _).
    exists fig. repeat split; assumption.
Defined.

(** C8.  With the collaborators fixed (the classifier and the explainer
    are functions of their arguments), what a submission shows does not
    depend on the session it runs in: after any history of earlier reruns,
    with any inputs, the same six values produce the same outcome and the
    same page, hence the same result card and the same chart.  The page is
    the function [view] of the inputs and of what [load_model] serves. *)
Theorem resubmission_is_deterministic
  (w : World) (i : Inputs) (history : list Inputs) (ss : Session) :
  visible (rerun w i (session_after w history ss)) = visible (rerun w i ss) /\
  visible (rerun w i (session_of (rerun w i ss))) = visible (rerun w i ss) /\
  visible (rerun w i ss) = view w i (effective w ss) /\
  (forall r, In (ResultCard r) (page (trace_of (rerun w i (session_after w history ss))))
             <-> In (ResultCard r) (page (trace_of (rerun w i ss)))) /\
  (forall fig, In (Pyplot fig) (page (trace_of (rerun w i (session_after w history ss))))
               <-> In (Pyplot fig) (page (trace_of (rerun w i ss)))).
Proof.
  assert (H1 : visible (rerun w i (session_after w history ss))
               = visible (rerun w i ss)).
  { rewrite (proj1 (rerun_view w i (session_after w history ss))).
    rewrite (proj1 (rerun_view w i ss)).
    now rewrite effective_session_after. }
  assert (H2 : page (trace_of (rerun w i (session_after w history ss)))
               = page (trace_of (rerun w i ss))).
  { exact (f_equal snd H1). }
  split; [exact H1|]. split; [|split; [exact (proj1 (rerun_view w i ss))|]].
  - rewrite (proj1 (rerun_view w i (session_of (rerun w i ss)))).
    rewrite (proj1 (rerun_view w i ss)).
    now rewrite (proj2 (rerun_view w i ss)).
  - rewrite H2. split; intros r; reflexivity.
Qed.

(** The default submission, twice in a fresh session: the second run has
    the classifier in the cache and shows the same page. *)
Example default_submission_twice :
  let first := rerun (Sample.world_of Sample.even_model) Sample.defaults fresh in
  let second :=
    rerun (Sample.world_of Sample.even_model) Sample.defaults (session_of first) in
  session_of first = Sample.warm /\
  visible second = visible first /\
  page (trace_of first)
  = [PageStyle; PageTitle; InputForm; ResultCard (make_result 0.5 0.5);
     Pyplot Sample.chart; Caption; GuideExpander; Footer].
Proof. repeat split. Qed.

(** C9, as stated, fails: when the explainer raises in the default
    submission, the card stays on the page, but the exception ends the run
    there, so the reference guide and the footer are missing too. *)
Lemma explanation_failure_counterexample :
  rerun Sample.failing_explainer Sample.defaults fresh
  = (Raised (OtherException "additivity check failed"),
     [PageStyle; CallJoblibLoad; PageTitle; InputForm;
      CallPredictProba (features Sample.defaults);
      ResultCard (make_result 0.5 0.5);
      CallTreeExplainer (sample_data Sample.defaults)],
     Sample.warm) /\
  ~ soft_failure (trace_of (rerun Sample.failing_explainer Sample.defaults fresh)).
Proof.
  split; [reflexivity|].
  intros (_ & _ & H). vm_compute in H.
  repeat (destruct H as [H | H]; [discriminate H|]). exact H.
Qed.

(** C9, amended.  When the explanation stage of a submission fails (the
    explainer, the slice or the drawing raises), the run ends with that
    exception right after the call to the explainer.  The prediction card
    emitted before is still on the page, and it is the last thing on the
    page: the chart and its caption are missing, and so are the reference
    guide and the footer. *)
Theorem explanation_failure_keeps_card
  (w : World) (i : Inputs) (ss : Session) (model : Classifier)
  (rows : list (list float)) (proba_array : list float) (r : PredictionResult)
  (e : exn) :
  serving w ss model ->
  button i = true ->
  predict_proba model (features i) = Returns rows ->
  first_row rows = Returns proba_array ->
  interpret_proba proba_array = Returns r ->
  explain w i model r = Throws e ->
  rerun w i ss = (Raised e, until_explainer i ss r, plotted ss model) /\
  In (ResultCard r) (trace_of (rerun w i ss)) /\
  (exists before, page (trace_of (rerun w i ss)) = before ++ [ResultCard r]) /\
  (forall ev, In ev (trace_of (rerun w i ss)) ->
     (forall fig, ev <> Pyplot fig) /\ ev <> Caption /\
     ev <> GuideExpander /\ ev <> Footer).
Proof.
  intros Hs Hb Hrows Hfirst Hres Hfail.
  assert (Hrun : rerun w i ss = (Raised e, until_explainer i ss r, plotted ss model)).
  { rewrite (rerun_after_prediction w i ss model rows proba_array r
               Hs Hb Hrows Hfirst Hres).
    now rewrite Hfail. }
  rewrite Hrun. unfold trace_of; cbn [fst snd].
  repeat split; try apply card_shown.
  - unfold until_explainer, until_card, until_predict, load_events, page.
    destruct (cached_model ss); simpl; eexists [_; _; _]; reflexivity.
  - intros fig ->. apply until_explainer_events in H.
    repeat (destruct H as [H | H]; [discriminate H|]). discriminate H.
  - intros ->. apply until_explainer_events in H.
    repeat (destruct H as [H | H]; [discriminate H|]). discriminate H.
  - intros ->. apply until_explainer_events in H.
    repeat (destruct H as [H | H]; [discriminate H|]). discriminate H.
  - intros ->. apply until_explainer_events in H.
    repeat (destruct H as [H | H]; [discriminate H|]). discriminate H.
Qed.

(** C9 amended, at an input: the failing explainer. *)
Lemma explanation_failure_keeps_card_witness :
  In (ResultCard (make_result 0.5 0.5))
     (trace_of (rerun Sample.failing_explainer Sample.defaults fresh)) /\
  page (trace_of (rerun Sample.failing_explainer Sample.defaults fresh))
  = [PageStyle; PageTitle; InputForm; ResultCard (make_result 0.5 0.5)].
Proof.
  split; [|reflexivity].
  exact (proj1 (proj2 (explanation_failure_keeps_card
    Sample.failing_explainer Sample.defaults fresh Sample.even_model
    [[0.5; 0.5]%float] [0.5; 0.5]%float (make_result 0.5 0.5)
    (OtherException "additivity check failed")
    (or_intror (conj eq_refl (conj eq_refl eq_refl)))
    eq_refl eq_refl eq_refl eq_refl eq_refl))).
Defined.

(** C10.  A displayed score that compares equal to zero (0.0 or -0.0) is
    not above zero, so [color_of] gives it the risk-reducing colour, and so
    does every bar of a rendered figure whose width is that score. *)
Theorem zero_score_colored_risk_reducing (val : float) :
  (val =? 0)%float = true ->
  (0 <? val)%float = false /\
  color_of val = "#4CAF50" /\
  forall vals fig b,
    render vals = Returns fig -> In b (bars fig) -> bar_width b = val ->
    bar_color b = "#4CAF50".
Proof.
  intros Hz. pose proof (float_zero_not_pos val Hz) as Hnot.
  assert (Hc : color_of val = "#4CAF50") by (unfold color_of; now rewrite Hnot).
  repeat split; auto.
  intros vals fig b Hfig Hin <-.
  now rewrite (proj2 (render_bars vals fig b Hfig Hin)).
Qed.

(** C10, at an input: the third bar of the sample chart has width -0.0. *)
Lemma zero_score_colored_risk_reducing_witness :
  color_of 0 = "#4CAF50" /\
  nth_error (bars Sample.chart) 2
  = Some {| bar_y := 2; bar_width := (-0)%float; bar_color := "#4CAF50" |}.
Proof.
  split; [|reflexivity].
  exact (proj1 (proj2 (zero_score_colored_risk_reducing 0 eq_refl))).
Defined.

(** * Part V: further properties of the script *)

(** ** Order of binary64 numbers and of their real values *)

Module Binary64Order.

Local Open Scope Z_scope.

(** A valid finite number has at most 53 digits, and exactly 53 above the
    smallest exponent. *)
Lemma valid_digits (s : bool) (m : positive) (e : Z) :
  valid_binary (S754_finite s m e) = true ->
  Zpos (digits2_pos m) <= 53 /\ -1074 <= e <= 971 /\
  (-1074 < e -> Zpos (digits2_pos m) = 53).
Proof.
  cbn [SpecFloat.valid_binary]. unfold bounded, canonical_mantissa.
  rewrite andb_true_iff, Z.eqb_eq, Z.leb_le, fexp_eq. unfold emax, prec. lia.
Qed.

Lemma valid_mantissa (s : bool) (m : positive) (e : Z) :
  valid_binary (S754_finite s m e) = true ->
  Zpos m < 2 ^ 53 /\ (-1074 < e -> 2 ^ 52 <= Zpos m).
Proof.
  intros (Hd & _ & Hn)%valid_digits.
  pose proof (digits2_pos_bounds m) as [Hlo Hhi]. split.
  - apply Z.lt_le_trans with (1 := Hhi). apply Z.pow_le_mono_r; lia.
  - intros He. rewrite (Hn He) in Hlo. exact Hlo.
Qed.

(** Among valid positive numbers a smaller exponent means a smaller
    value. *)
Lemma exponent_order (m1 m2 : positive) (e1 e2 : Z) :
  valid_binary (S754_finite false m1 e1) = true ->
  valid_binary (S754_finite false m2 e2) = true ->
  e1 < e2 ->
  (IZR (Zpos m1) * bpow e1 < IZR (Zpos m2) * bpow e2)%R.
Proof.
  intros H1 H2 He.
  pose proof (valid_digits _ _ _ H1) as (_ & He1 & _).
  destruct (valid_mantissa _ _ _ H1) as [Hm1 _].
  destruct (valid_mantissa _ _ _ H2) as [_ Hm2].
  specialize (Hm2 ltac:(lia)).
  apply IZR_lt in Hm1. apply IZR_le in Hm2.
  rewrite <- bpow_IZR in Hm1, Hm2 by lia.
  pose proof (bpow_pos e1). pose proof (bpow_pos e2).
  pose proof (bpow_le (e1 + 1) e2 ltac:(lia)) as Hle.
  rewrite bpow_add, bpow_1 in Hle.
  assert (H53 : bpow 53 = (bpow 52 * 2)%R).
  { rewrite <- bpow_1, <- bpow_add. reflexivity. }
  pose proof (bpow_pos 52).
  apply Rlt_le_trans with (bpow 53 * bpow e1)%R; [nra|].
  apply Rle_trans with (bpow 52 * bpow e2)%R; [rewrite H53; nra | nra].
Qed.

Lemma mantissa_order (m1 m2 : positive) (e : Z) :
  (IZR (Zpos m1) * bpow e <= IZR (Zpos m2) * bpow e)%R <-> (m1 <= m2)%positive.
Proof.
  pose proof (bpow_pos e). split.
  - intros Hle. assert (Hz : Zpos m1 <= Zpos m2) by (apply le_IZR; nra). lia.
  - intros Hle. assert (Hz : Zpos m1 <= Zpos m2) by lia.
    apply IZR_le in Hz. nra.
Qed.

(** On finite non-negative numbers the float order is the order of the
    real values. *)
Lemma leb_F2R (x y : float) :
  SF_finite (Prim2SF x) = true -> SF_finite (Prim2SF y) = true ->
  (0 <= F2R x)%R -> (0 <= F2R y)%R ->
  ((x <=? y)%float = true <-> (F2R x <= F2R y)%R).
Proof.
  unfold F2R. intros Hfx Hfy Hx Hy. rewrite leb_spec.
  pose proof (Prim2SF_valid x) as Vx. pose proof (Prim2SF_valid y) as Vy.
  destruct (SF_nonneg_cases _ Hfx Hx) as [[sx Ex] | (mx & ex & Ex)];
    destruct (SF_nonneg_cases _ Hfy Hy) as [[sy Ey] | (my & ey & Ey)];
    rewrite Ex, Ey in *; cbn [SF2R signR] in *.
  - split; [lra | reflexivity].
  - split; [intros _; exact Hy | reflexivity].
  - assert (0 < IZR (Zpos mx) * bpow ex)%R.
    { apply Rmult_lt_0_compat; [apply IZR_lt; lia | apply bpow_pos]. }
    split; [discriminate | lra].
  - rewrite !Rmult_1_l. unfold SFleb, SFcompare.
    destruct (Z.compare_spec ex ey) as [->|Hlt|Hgt].
    + rewrite Pos.compare_cont_spec. cbn [Pos.switch_Eq].
      rewrite mantissa_order.
      destruct (Pos.compare_spec mx my); split; try reflexivity;
        try discriminate; lia.
    + pose proof (exponent_order mx my ex ey Vx Vy Hlt).
      split; [lra | reflexivity].
    + pose proof (exponent_order my mx ey ex Vy Vx Hgt).
      split; [discriminate | lra].
Qed.

(** *** The grid of binary64 around 1/2 and 1 *)

Lemma bpow_m1 : bpow (-1) = (/ 2)%R.
Proof. unfold bpow. simpl. lra. Qed.

Lemma bpow_split (a b : Z) : (bpow a * bpow b = bpow (a + b))%R.
Proof. symmetry. apply bpow_add. Qed.

Lemma F2R_half : F2R 0.5 = (/ 2)%R.
Proof.
  unfold F2R.
  change (Prim2SF 0.5) with (S754_finite false 4503599627370496 (-53)).
  cbn [SF2R signR]. change 4503599627370496 with (2 ^ 52).
  rewrite <- bpow_IZR by lia. rewrite Rmult_1_l, bpow_split. exact bpow_m1.
Qed.

Lemma F2R_one : F2R 1 = 1%R.
Proof. apply eqb_one_F2R. reflexivity. Qed.

Lemma F2R_50 : F2R 50 = 50%R.
Proof.
  unfold F2R.
  change (Prim2SF 50) with (S754_finite false 7036874417766400 (-47)).
  cbn [SF2R signR]. change 7036874417766400 with (50 * 2 ^ 47).
  rewrite mult_IZR, <- bpow_IZR by lia.
  pose proof (bpow_opp 47) as H. change (- (47)) with (-47) in H.
  rewrite Rmult_1_l, Rmult_assoc, H. lra.
Qed.

Lemma F2R_100 : F2R 100 = 100%R.
Proof.
  unfold F2R.
  change (Prim2SF 100) with (S754_finite false 7036874417766400 (-46)).
  cbn [SF2R signR]. change 7036874417766400 with (100 * 2 ^ 46).
  rewrite mult_IZR, <- bpow_IZR by lia.
  pose proof (bpow_opp 46) as H. change (- (46)) with (-46) in H.
  rewrite Rmult_1_l, Rmult_assoc, H. lra.
Qed.

Lemma is_probability_finite (p : float) :
  is_probability p = true -> SF_finite (Prim2SF p) = true.
Proof.
  intros [[s E] | (m & e & E & _)]%is_probability_SF; now rewrite E.
Qed.

Lemma F2R_probability_le_1 (p : float) :
  is_probability p = true -> (F2R p <= 1)%R.
Proof.
  intros Hp. rewrite <- F2R_one.
  apply leb_F2R.
  - now apply is_probability_finite.
  - reflexivity.
  - now apply F2R_probability_nonneg.
  - rewrite F2R_one. lra.
  - unfold is_probability in Hp. now apply andb_true_iff in Hp.
Qed.

(** A probability is at most the float before 1/2, or it is 0.5, or it
    is at least the float after 1/2. *)
Lemma probability_grid_half (p : float) :
  is_probability p = true ->
  (F2R p <= / 2 - bpow (-54))%R \/
  Prim2SF p = S754_finite false 4503599627370496 (-53) \/
  (/ 2 + bpow (-53) <= F2R p)%R.
Proof.
  intros Hp. pose proof (Prim2SF_valid p) as V.
  pose proof (bpow_pos (-54)) as Hh.
  assert (H53 : bpow (-53) = (2 * bpow (-54))%R).
  { rewrite <- bpow_1, bpow_split. reflexivity. }
  assert (H1 : (bpow 53 * bpow (-54) = / 2)%R).
  { rewrite bpow_split. exact bpow_m1. }
  assert (H2 : (bpow 52 * bpow (-53) = / 2)%R).
  { rewrite bpow_split. exact bpow_m1. }
  assert (H3 : (bpow 52 * bpow (-52) = 1)%R) by exact (bpow_opp 52).
  assert (Hsmall : (bpow (-54) <= / 4)%R).
  { apply Rle_trans with (bpow (-2)); [apply bpow_le; lia|].
    unfold bpow. simpl. lra. }
  unfold F2R.
  destruct (is_probability_SF p Hp) as [[s E] | (m & e & E & He & _)];
    rewrite E in *; cbn [SF2R signR].
  - left. lra.
  - rewrite Rmult_1_l.
    destruct (valid_mantissa _ _ _ V) as [Hm Hn].
    pose proof (bpow_pos e) as Hbe.
    assert (Hmp : (0 < IZR (Zpos m))%R) by (apply IZR_lt; lia).
    destruct (Z_lt_le_dec e (-53)) as [Hlt|Hge].
    + left.
      assert (Hm' : Zpos m <= 2 ^ 53 - 1) by lia.
      apply IZR_le in Hm'. rewrite minus_IZR, <- bpow_IZR in Hm' by lia.
      pose proof (bpow_le e (-54) ltac:(lia)) as Hle.
      apply Rle_trans with ((bpow 53 - 1) * bpow (-54))%R; [|lra].
      apply Rmult_le_compat; lra.
    + specialize (Hn ltac:(lia)).
      destruct (Z.eq_dec e (-53)) as [->|Hne].
      * destruct (Z.eq_dec (Zpos m) (2 ^ 52)) as [Hm52|Hm52].
        -- right; left. f_equal. change (2 ^ 52) with (Zpos 4503599627370496) in Hm52.
           now injection Hm52.
        -- right; right.
           assert (Hm' : 2 ^ 52 + 1 <= Zpos m) by lia.
           apply IZR_le in Hm'. rewrite plus_IZR, <- bpow_IZR in Hm' by lia.
           nra.
      * right; right. assert (e = -52) by lia. subst e.
        apply IZR_le in Hn. rewrite <- bpow_IZR in Hn by lia.
        pose proof (bpow_pos (-52)). nra.
Qed.

(** A probability is at most the float before 1, or it is 1.0. *)
Lemma probability_grid_one (p : float) :
  is_probability p = true ->
  (F2R p <= 1 - bpow (-53))%R \/
  Prim2SF p = S754_finite false 4503599627370496 (-52).
Proof.
  intros Hp. pose proof (Prim2SF_valid p) as V.
  pose proof (F2R_probability_le_1 p Hp) as Hle1.
  pose proof (bpow_pos (-53)) as Hu.
  assert (H1 : (bpow 53 * bpow (-53) = 1)%R) by exact (bpow_opp 53).
  assert (H3 : (bpow 52 * bpow (-52) = 1)%R) by exact (bpow_opp 52).
  assert (Hsmall : (bpow (-53) <= / 4)%R).
  { apply Rle_trans with (bpow (-2)); [apply bpow_le; lia|].
    unfold bpow. simpl. lra. }
  unfold F2R in *.
  destruct (is_probability_SF p Hp) as [[s E] | (m & e & E & He & _)];
    rewrite E in *; cbn [SF2R signR] in *.
  - left. lra.
  - rewrite Rmult_1_l in *.
    destruct (valid_mantissa _ _ _ V) as [Hm Hn].
    pose proof (bpow_pos e) as Hbe.
    assert (Hmp : (0 < IZR (Zpos m))%R) by (apply IZR_lt; lia).
    destruct (Z_lt_le_dec e (-52)) as [Hlt|Hge].
    + left.
      assert (Hm' : Zpos m <= 2 ^ 53 - 1) by lia.
      apply IZR_le in Hm'. rewrite minus_IZR, <- bpow_IZR in Hm' by lia.
      pose proof (bpow_le e (-53) ltac:(lia)) as Hle.
      apply Rle_trans with ((bpow 53 - 1) * bpow (-53))%R; [|lra].
      apply Rmult_le_compat; lra.
    + right. assert (e = -52) by lia. subst e.
      specialize (Hn ltac:(lia)).
      assert (Hm52 : Zpos m <= 2 ^ 52).
      { apply le_IZR. rewrite <- bpow_IZR by lia.
        pose proof (bpow_pos (-52)). nra. }
      assert (Heq : Zpos m = Zpos 4503599627370496) by (change (Zpos 4503599627370496) with (2 ^ 52); lia).
      injection Heq as ->. reflexivity.
Qed.

(** *** Where a probability times 100 lands *)

Lemma eta_below_u_squared : (eta64 <= u64 * u64)%R.
Proof.
  unfold eta64, u64. rewrite bpow_split. apply bpow_le. lia.
Qed.

Lemma half_times_100 :
  SFmul prec emax (S754_finite false 4503599627370496 (-53))
                  (S754_finite false 7036874417766400 (-46))
  = S754_finite false 7036874417766400 (-47).
Proof. vm_compute. reflexivity. Qed.

Lemma one_times_100 :
  SFmul prec emax (S754_finite false 4503599627370496 (-52))
                  (S754_finite false 7036874417766400 (-46))
  = S754_finite false 7036874417766400 (-46).
Proof. vm_compute. reflexivity. Qed.

(** Multiplying a probability by 100 keeps its side of 1/2: below 1/2
    lands below 50, 0.5 lands on 50.0, above 1/2 lands above 50; and the
    result does not exceed 100. *)
Lemma times_100_order (p : float) :
  is_probability p = true ->
  ((F2R p < / 2)%R -> (F2R (p * 100) < 50)%R) /\
  ((F2R p = / 2)%R -> F2R (p * 100) = 50%R) /\
  ((/ 2 < F2R p)%R -> (50 < F2R (p * 100))%R) /\
  (F2R (p * 100) <= 100)%R.
Proof.
  intros Hp.
  destruct (times_100_error p Hp) as (_ & _ & Herr).
  apply Rabs_bounds in Herr.
  pose proof (F2R_probability_nonneg p Hp) as H0.
  pose proof (F2R_probability_le_1 p Hp) as H1.
  pose proof u64_small as Hu. pose proof eta_below_u_squared as Heta.
  pose proof (bpow_pos (-1075)) as Heta0. fold eta64 in Heta0.
  assert (Hh : bpow (-54) = (u64 / 2)%R).
  { unfold u64. replace (-53) with (-54 + 1) by lia.
    rewrite bpow_add, bpow_1. lra. }
  assert (Huu : (0 < u64 * u64)%R) by nra.
  assert (Hexact50 : Prim2SF p = S754_finite false 4503599627370496 (-53) ->
                     F2R p = (/ 2)%R /\ F2R (p * 100) = 50%R).
  { intros E. split.
    - rewrite <- F2R_half. unfold F2R. now rewrite E.
    - rewrite <- F2R_50. unfold F2R at 1. rewrite mul_spec, E.
      change (Prim2SF 100) with (S754_finite false 7036874417766400 (-46)).
      unfold SF64mul. rewrite half_times_100. reflexivity. }
  assert (Hexact100 : Prim2SF p = S754_finite false 4503599627370496 (-52) ->
                      F2R (p * 100) = 100%R).
  { intros E. rewrite <- F2R_100. unfold F2R at 1. rewrite mul_spec, E.
    change (Prim2SF 100) with (S754_finite false 7036874417766400 (-46)).
    unfold SF64mul. rewrite one_times_100. reflexivity. }
  assert (Htop : (F2R (p * 100) <= 100)%R).
  { destruct (probability_grid_one p Hp) as [Hlt | E].
    - fold u64 in Hlt.
      assert ((F2R p * 100) * (1 + u64) <= (100 - 100 * u64) * (1 + u64))%R
        by (apply Rmult_le_compat_r; lra).
      nra.
    - rewrite (Hexact100 E). lra. }
  destruct (probability_grid_half p Hp) as [Hlt | [E | Hgt]].
  - rewrite Hh in Hlt.
    assert ((F2R p * 100) * (1 + u64) <= (50 - 50 * u64) * (1 + u64))%R
      by (apply Rmult_le_compat_r; lra).
    repeat split; try exact Htop; intros; try lra; nra.
  - destruct (Hexact50 E) as [Ep E50]. rewrite Ep, E50.
    repeat split; intros; lra.
  - fold u64 in Hgt.
    assert ((50 + 100 * u64) * (1 - u64) <= (F2R p * 100) * (1 - u64))%R
      by (apply Rmult_le_compat_r; lra).
    repeat split; try exact Htop; intros; try lra; nra.
Qed.

End Binary64Order.

Import Binary64Order.

(** ** The prediction arithmetic at the threshold *)

(** The threshold test of line 208 on the percentage, as a test on the
    real value of the percentage. *)
Lemma threshold_F2R (p : float) :
  is_probability p = true ->
  ((50 <=? p * 100)%float = true <-> (50 <= F2R (p * 100))%R).
Proof.
  intros Hp. destruct (times_100_error p Hp) as (Hfin & Hnn & _).
  rewrite <- F2R_50. apply leb_F2R; try assumption; try reflexivity.
  rewrite F2R_50. lra.
Qed.

Lemma half_F2R (p : float) :
  is_probability p = true ->
  ((0.5 <=? p)%float = true <-> (/ 2 <= F2R p)%R).
Proof.
  intros Hp. rewrite <- F2R_half. apply leb_F2R; try reflexivity.
  - now apply is_probability_finite.
  - rewrite F2R_half. lra.
  - now apply F2R_probability_nonneg.
Qed.

(** X1.  For a positive-class probability [p1] between 0.0 and 1.0 the
    class computed from the percentage [p1 * 100] is 1 exactly when
    [0.5 <= p1]: the rounding of the multiplication never moves a
    probability across the threshold. *)
Theorem decision_boundary_is_half (p0 p1 : float) (r : PredictionResult) :
  interpret_proba [p0; p1] = Returns r ->
  is_probability p1 = true ->
  (predicted_class r = 1%Z <-> (0.5 <=? p1)%float = true) /\
  (predicted_class r = 0%Z <-> (p1 <? 0.5)%float = true).
Proof.
  intros [= <-] Hp. cbn [make_result predicted_class].
  pose proof (threshold_F2R p1 Hp) as Ht.
  pose proof (half_F2R p1 Hp) as Hh.
  destruct (times_100_order p1 Hp) as (Hlt & Heq & Hgt & _).
  assert (Hiff : (50 <=? p1 * 100)%float = true <-> (0.5 <=? p1)%float = true).
  { rewrite Ht, Hh. split; intros H.
    - destruct (Rlt_le_dec (F2R p1) (/ 2)) as [Hl|Hl]; [|exact Hl].
      specialize (Hlt Hl). lra.
    - destruct (Rle_lt_or_eq_dec _ _ H) as [Hl|He].
      + specialize (Hgt Hl). lra.
      + symmetry in He. rewrite (Heq He). lra. }
  assert (Hltb : (p1 <? 0.5)%float = negb (0.5 <=? p1)%float).
  { rewrite ltb_spec, leb_spec.
    change (Prim2SF 0.5) with (S754_finite false 4503599627370496 (-53)).
    destruct (is_probability_SF p1 Hp) as [[s E] | (m & e & E & _)];
      rewrite E; [destruct s; reflexivity|].
    unfold SFltb, SFleb, SFcompare.
    rewrite (Z.compare_antisym e (-53)).
    destruct (Z.compare_spec e (-53)); cbn [CompOpp]; try reflexivity.
    rewrite !Pos.compare_cont_spec. cbn [Pos.switch_Eq].
    rewrite (Pos.compare_antisym m 4503599627370496).
    destruct (Pos.compare m 4503599627370496); reflexivity. }
  rewrite Hltb, negb_true_iff.
  destruct (50 <=? p1 * 100)%float, (0.5 <=? p1)%float;
    destruct Hiff as [Ha Hb]; repeat split; intros; try congruence;
    try (specialize (Ha eq_refl); discriminate);
    try (specialize (Hb eq_refl); discriminate).
Qed.

(** X1, at inputs: exactly 0.5 gives class 1, and the largest float below
    0.5 gives class 0, although its percentage is within 6e-15 of 50. *)
Lemma decision_boundary_is_half_witness :
  predicted_class (make_result 0.5 0.5) = 1%Z /\
  predicted_class (make_result 0.5 0.49999999999999994) = 0%Z.
Proof.
  split.
  - exact (proj2 (proj1 (decision_boundary_is_half 0.5 0.5 _ eq_refl eq_refl))
             eq_refl).
  - exact (proj2 (proj2 (decision_boundary_is_half 0.5 0.49999999999999994 _
                           eq_refl eq_refl)) eq_refl).
Defined.

Lemma times_100_in_range (p : float) :
  is_probability p = true ->
  ((0 <=? p * 100) && (p * 100 <=? 100))%float = true.
Proof.
  intros Hp. destruct (times_100_error p Hp) as (Hfin & Hnn & _).
  destruct (times_100_order p Hp) as (_ & _ & _ & Hle).
  apply andb_true_iff. split.
  - apply leb_F2R; try assumption; try reflexivity;
      change (F2R 0) with 0%R; lra.
  - apply leb_F2R; try assumption; try reflexivity;
      rewrite F2R_100; lra.
Qed.

(** X2.  For a row of two probabilities both percentages are binary64
    numbers between 0.0 and 100.0 (never NaN, never above 100 by a
    rounding step). *)
Theorem percentages_in_range (p0 p1 : float) (r : PredictionResult) :
  interpret_proba [p0; p1] = Returns r ->
  is_probability p0 = true ->
  is_probability p1 = true ->
  ((0 <=? probability_positive r) && (probability_positive r <=? 100))%float = true /\
  ((0 <=? probability_negative r) && (probability_negative r <=? 100))%float = true.
Proof.
  intros [= <-] H0 H1.
  cbn [make_result probability_positive probability_negative].
  split; now apply times_100_in_range.
Qed.

(** X2, at an input: probabilities 0.0 and 1.0 give exactly 0.0 and
    100.0. *)
Lemma percentages_in_range_witness :
  make_result 0 1
  = {| probability_positive := 100; probability_negative := 0;
       predicted_class := 1; predicted_label := "高风险" |} /\
  ((0 <=? probability_positive (make_result 0 1))
   && (probability_positive (make_result 0 1) <=? 100))%float = true.
Proof.
  split; [reflexivity|].
  exact (proj1 (percentages_in_range 0 1 _ eq_refl eq_refl eq_refl)).
Defined.

(** X3.  When the two probabilities sum to 1, the predicted class is the
    class with the larger percentage, and equal percentages give class 1:
    the class is 1 exactly when
    [probability_negative <= probability_positive]. *)
Theorem predicted_class_is_larger_percentage
  (p0 p1 : float) (r : PredictionResult) :
  interpret_proba [p0; p1] = Returns r ->
  is_probability p0 = true ->
  is_probability p1 = true ->
  (F2R p0 + F2R p1 = 1)%R ->
  (predicted_class r = 1%Z
   <-> (probability_negative r <=? probability_positive r)%float = true).
Proof.
  intros [= <-] H0 H1 Hsum.
  cbn [make_result predicted_class probability_positive probability_negative].
  pose proof (threshold_F2R p1 H1) as Ht.
  destruct (times_100_error p0 H0) as (F0 & N0 & _).
  destruct (times_100_error p1 H1) as (F1 & N1 & _).
  pose proof (leb_F2R (p0 * 100) (p1 * 100) F0 F1 N0 N1) as Hcmp.
  destruct (times_100_order p0 H0) as (Hlt0 & Heq0 & Hgt0 & _).
  destruct (times_100_order p1 H1) as (Hlt1 & Heq1 & Hgt1 & _).
  assert (Hiff : (50 <=? p1 * 100)%float = true
                 <-> (p0 * 100 <=? p1 * 100)%float = true).
  { rewrite Ht, Hcmp.
    destruct (Rtotal_order (F2R p1) (/ 2)) as [Hl | [He | Hg]].
    - specialize (Hlt1 Hl). specialize (Hgt0 ltac:(lra)). split; lra.
    - specialize (Heq1 He). specialize (Heq0 ltac:(lra)). split; lra.
    - specialize (Hgt1 Hg). specialize (Hlt0 ltac:(lra)). split; lra. }
  destruct (50 <=? p1 * 100)%float, (p0 * 100 <=? p1 * 100)%float;
    destruct Hiff as [Ha Hb]; split; intros; try congruence;
    try (specialize (Ha eq_refl); discriminate);
    try (specialize (Hb eq_refl); discriminate).
Qed.

(** X3, at an input: the row [0.5, 0.5] gives two equal percentages and
    class 1. *)
Lemma predicted_class_is_larger_percentage_witness :
  (probability_negative (make_result 0.5 0.5)
   <=? probability_positive (make_result 0.5 0.5))%float = true /\
  predicted_class (make_result 0.5 0.5) = 1%Z.
Proof.
  split; [reflexivity|].
  refine (proj2 (predicted_class_is_larger_percentage 0.5 0.5 _
                   eq_refl eq_refl eq_refl _) eq_refl).
  rewrite F2R_half. lra.
Defined.

(** ** Every rerun has one of six shapes *)

Lemma load_raises_run (w : World) (i : Inputs) (ss : Session) (e : exn) :
  cached_model ss = None ->
  joblib_load w = Throws e ->
  rerun w i ss = (Raised e, [PageStyle; CallJoblibLoad], ss).
Proof.
  intros Hc Hload.
  unfold rerun, script, load_model, load_model_body, bind, get_session,
    call, emit, raise; simpl. rewrite Hc, Hload. simpl.
  destruct ss; reflexivity.
Qed.

(** Every rerun has one of the six shapes. *)
Lemma rerun_shape (w : World) (i : Inputs) (ss : Session) :
  run_shape w i ss (rerun w i ss).
Proof.
  destruct (effective w ss) as [model|e|] eqn:E.
  - pose proof (effective_serving w ss model E) as Hs.
    destruct (button i) eqn:Hb.
    + destruct (predict model i) as [r|e] eqn:Hp.
      * pose proof Hp as Hp'. unfold predict in Hp'.
        destruct (predict_proba model (features i)) as [rows|] eqn:Hrows;
          [|discriminate].
        destruct (first_row rows) as [proba_array|] eqn:Hfirst; [|discriminate].
        rewrite (rerun_after_prediction w i ss model rows proba_array r
                   Hs Hb Hrows Hfirst Hp').
        destruct (explain w i model r) eqn:Hx.
        -- now apply explained with (model := model).
        -- now apply explanation_failed with (model := model).
      * rewrite (rerun_prediction_fails w i ss model Hs Hb e).
        -- now apply prediction_failed.
        -- unfold predict in Hp.
           destruct (predict_proba model (features i)) as [rows|] eqn:Hrows;
             [|left; congruence].
           right. exists rows. split; [reflexivity|].
           destruct (first_row rows) as [proba_array|] eqn:Hfirst;
             [|left; congruence].
           right. exists proba_array. split; [reflexivity | exact Hp].
    + rewrite (rerun_serving w i ss model Hs), Hb.
      unfold finish, ret, at_form. cbn [trace session].
      rewrite <- !app_assoc. now apply idle.
  - revert E. unfold effective.
    destruct (cached_model ss) eqn:Hc; [discriminate|].
    destruct (joblib_load w) as [m|e'] eqn:Hload;
      [destruct (classes_ok m); discriminate|].
    intros [= ->]. rewrite (load_raises_run w i ss e Hc Hload).
    now apply load_raises.
  - revert E. unfold effective.
    destruct (cached_model ss) eqn:Hc; [discriminate|].
    destruct (joblib_load w) as [m|e'] eqn:Hload; [|discriminate].
    destruct (classes_ok m) eqn:Hok; [discriminate|]. intros _.
    assert (Hne : classes_ m <> [0; 1]%Z).
    { intros H. unfold classes_ok in Hok. rewrite H in Hok. discriminate Hok. }
    rewrite (rerun_label_mismatch w i ss m Hc Hload Hne).
    now apply labels_rejected with (model := m).
Qed.

(** ** Idle runs *)

(** X4.  A rerun in which the button is not pressed never reaches the
    pipeline: no call to the classifier or the explainer, no result card,
    no chart.  With a model served it completes with the style block, the
    title, the form, the reference guide and the footer, and leaves the
    model in the cache. *)
Theorem idle_run_shows_form_only (w : World) (i : Inputs) (ss : Session) :
  button i = false ->
  existsb pipeline_event (trace_of (rerun w i ss)) = false /\
  forall model, serving w ss model ->
    rerun w i ss
    = (Done tt,
       [PageStyle] ++ load_events ss ++
       [PageTitle; InputForm; GuideExpander; Footer],
       loaded ss model).
Proof.
  intros Hb. split.
  - destruct (rerun_shape w i ss); try congruence; unfold trace_of; cbn [fst snd];
      try reflexivity.
    unfold load_events. destruct (cached_model ss); reflexivity.
  - intros model Hs. rewrite (rerun_serving w i ss model Hs), Hb.
    unfold finish, ret, at_form. cbn [trace session].
    now rewrite <- !app_assoc.
Qed.

Lemma idle_run_shows_form_only_witness :
  rerun (Sample.world_of Sample.even_model) More.idle_defaults fresh
  = (Done tt,
     [PageStyle; CallJoblibLoad; PageTitle; InputForm; GuideExpander; Footer],
     loaded fresh Sample.even_model).
Proof.
  exact (proj2 (idle_run_shows_form_only (Sample.world_of Sample.even_model)
                  More.idle_defaults fresh eq_refl)
               Sample.even_model (or_intror (conj eq_refl (conj eq_refl eq_refl)))).
Defined.

(** ** Loading over a session *)

Lemma loads_app (t1 t2 : list event) : loads (t1 ++ t2) = (loads t1 + loads t2)%nat.
Proof. unfold loads. now rewrite filter_app, length_app. Qed.

(** One rerun calls [joblib.load] exactly when the cache is empty. *)
Lemma loads_rerun (w : World) (i : Inputs) (ss : Session) :
  loads (trace_of (rerun w i ss))
  = match cached_model ss with Some _ => 0 | None => 1 end%nat.
Proof.
  destruct (rerun_shape w i ss) as [e Hc|m Hc| | | | ];
    unfold trace_of; cbn [fst snd];
    unfold until_explainer, until_card, until_predict, load_events;
    try (rewrite Hc; reflexivity);
    destruct (cached_model ss); reflexivity.
Qed.

Lemma serving_cached (w : World) (i : Inputs) (ss : Session) (model : Classifier) :
  serving w ss model ->
  cached_model (session_of (rerun w i ss)) = Some model.
Proof. intros Hs. exact (proj2 (rerun_served w i ss model Hs)). Qed.

Lemma session_after_cons (w : World) (i : Inputs) (rest : list Inputs) (ss : Session) :
  session_after w (i :: rest) ss = session_after w rest (session_of (rerun w i ss)).
Proof. reflexivity. Qed.

Lemma loads_cached (w : World) (history : list Inputs) (ss : Session)
  (model : Classifier) :
  cached_model ss = Some model ->
  loads (session_trace w history ss) = 0%nat /\
  cached_model (session_after w history ss) = Some model.
Proof.
  revert ss. induction history as [|i rest IH]; intros ss Hc; [now split|].
  cbn [session_trace]. rewrite session_after_cons, loads_app, loads_rerun, Hc.
  apply IH. apply serving_cached. now left.
Qed.

(** X5.  With an artifact that passes the label check, [joblib.load] is
    called once in a session, in its first rerun; every later rerun is
    served from the cache, whatever the inputs and however the reruns
    end. *)
Theorem artifact_loaded_once
  (w : World) (model : Classifier) (i : Inputs) (history : list Inputs) :
  joblib_load w = Returns model ->
  classes_ model = [0; 1]%Z ->
  loads (trace_of (rerun w i fresh)) = 1%nat /\
  loads (session_trace w (i :: history) fresh) = 1%nat /\
  cached_model (session_after w (i :: history) fresh) = Some model.
Proof.
  intros Hload Hcls.
  assert (Hs : serving w fresh model) by (right; auto).
  pose proof (serving_cached w i fresh model Hs) as Hc.
  destruct (loads_cached w history _ model Hc) as [H0 H1].
  split; [now rewrite loads_rerun|]. split.
  - cbn [session_trace]. now rewrite loads_app, loads_rerun, H0.
  - now rewrite session_after_cons.
Qed.

Lemma artifact_loaded_once_witness :
  loads (session_trace (Sample.world_of Sample.even_model)
           [Sample.defaults; More.idle_defaults; Sample.defaults] fresh) = 1%nat.
Proof.
  exact (proj1 (proj2 (artifact_loaded_once (Sample.world_of Sample.even_model)
    Sample.even_model Sample.defaults [More.idle_defaults; Sample.defaults]
    eq_refl eq_refl))).
Defined.

(** A session in which [load_model] fails stays as it is. *)
Lemma not_served_session (w : World) (i : Inputs) (ss : Session) :
  (forall model, effective w ss <> Done model) ->
  session_of (rerun w i ss) = ss /\
  existsb (fun ev => match ev with PageTitle | InputForm => true | _ => false end)
          (trace_of (rerun w i ss)) = false.
Proof.
  intros Hne.
  destruct (rerun_shape w i ss) as [e Hc Hl|m Hc Hl Hcls|m Hs|m e Hs|m r e Hs|m r fig Hs];
    try (split; reflexivity).
  all: exfalso; apply (Hne m); unfold effective;
    destruct Hs as [-> | (-> & -> & Hcls)]; [reflexivity|];
    unfold classes_ok; rewrite Hcls; reflexivity.
Qed.

Lemma not_served_history (w : World) (history : list Inputs) (ss : Session) :
  (forall model, effective w ss <> Done model) ->
  session_after w history ss = ss /\
  loads (session_trace w history ss) = List.length history.
Proof.
  intros Hne. induction history as [|i rest [IH1 IH2]]; [now split|].
  pose proof (proj1 (not_served_session w i ss Hne)) as Hss.
  rewrite session_after_cons. cbn [session_trace List.length].
  rewrite loads_app, loads_rerun, Hss. split; [exact IH1|].
  rewrite IH2. revert Hne. unfold effective.
  destruct (cached_model ss) as [m|]; [|reflexivity].
  intros Hne. now destruct (Hne m).
Qed.

(** X6.  When [joblib.load] raises, nothing catches the exception and
    nothing is cached: every rerun of the session, after any history, ends
    with that exception right after the style block, before the title and
    the form, and calls [joblib.load] again. *)
Theorem load_failure_repeats
  (w : World) (e : exn) (i : Inputs) (history : list Inputs) (ss : Session) :
  cached_model ss = None ->
  joblib_load w = Throws e ->
  rerun w i (session_after w history ss)
  = (Raised e, [PageStyle; CallJoblibLoad], ss) /\
  loads (session_trace w history ss) = List.length history.
Proof.
  intros Hc Hload.
  assert (Hne : forall model, effective w ss <> Done model).
  { intros model. unfold effective. rewrite Hc, Hload. discriminate. }
  destruct (not_served_history w history ss Hne) as [-> Hn].
  split; [exact (load_raises_run w i ss e Hc Hload) | exact Hn].
Qed.

Lemma load_failure_repeats_witness :
  rerun More.missing_artifact Sample.defaults
    (session_after More.missing_artifact [Sample.defaults; More.idle_defaults] fresh)
  = (Raised (OtherException "No such file or directory: 'rf_model.pkl'"),
     [PageStyle; CallJoblibLoad], fresh).
Proof.
  exact (proj1 (load_failure_repeats More.missing_artifact _ Sample.defaults
                  [Sample.defaults; More.idle_defaults] fresh eq_refl eq_refl)).
Defined.

(** X7.  An artifact whose labels are rejected is never cached: after any
    history of reruns the session is unchanged, the next rerun loads the
    artifact again, shows the same configuration error and stops before
    the form; [joblib.load] has been called once per rerun. *)
Theorem rejected_artifact_is_reloaded
  (w : World) (model : Classifier) (i : Inputs) (history : list Inputs)
  (ss : Session) :
  cached_model ss = None ->
  joblib_load w = Returns model ->
  classes_ model <> [0; 1]%Z ->
  session_after w history ss = ss /\
  rerun w i (session_after w history ss) = rerun w i ss /\
  loads (trace_of (rerun w i (session_after w history ss))) = 1%nat /\
  loads (session_trace w history ss) = List.length history.
Proof.
  intros Hc Hload Hcls.
  assert (Hne : forall m, effective w ss <> Done m).
  { intros m. unfold effective, classes_ok. rewrite Hc, Hload.
    destruct (list_eq_dec Z.eq_dec (classes_ model) [0; 1]%Z);
      [contradiction | discriminate]. }
  destruct (not_served_history w history ss Hne) as [Hss Hn].
  rewrite Hss, loads_rerun, Hc. auto.
Qed.

Lemma rejected_artifact_is_reloaded_witness :
  loads (session_trace (Sample.world_of Sample.swapped_model)
           [Sample.defaults; More.idle_defaults; Sample.defaults] fresh) = 3%nat.
Proof.
  refine (proj2 (proj2 (proj2 (rejected_artifact_is_reloaded
    (Sample.world_of Sample.swapped_model) Sample.swapped_model Sample.defaults
    [Sample.defaults; More.idle_defaults; Sample.defaults] fresh
    eq_refl eq_refl _)))).
  simpl. discriminate.
Defined.

(** ** What the cache holds *)

Lemma cache_sound_rerun (w : World) (i : Inputs) (ss : Session) :
  cache_sound w ss -> cache_sound w (session_of (rerun w i ss)).
Proof.
  intros Hsound.
  assert (Hserved : forall m, serving w ss m ->
            joblib_load w = Returns m /\ classes_ m = [0; 1]%Z).
  { intros m [Hc | (_ & Hl & Hcls)]; [exact (Hsound m Hc) | now split]. }
  destruct (rerun_shape w i ss) as [e Hc Hl|m Hc Hl Hcls|m Hs|m e Hs|m r e Hs|m r fig Hs];
    unfold session_of; cbn [snd]; try exact Hsound;
    intros m' [= <-]; exact (Hserved m Hs).
Qed.

Lemma cache_sound_after (w : World) (history : list Inputs) (ss : Session) :
  cache_sound w ss -> cache_sound w (session_after w history ss).
Proof.
  revert ss. induction history as [|i rest IH]; intros ss H; [exact H|].
  rewrite session_after_cons. apply IH. now apply cache_sound_rerun.
Qed.

Lemma in_session_trace (w : World) (history : list Inputs) (ss : Session)
  (ev : event) :
  In ev (session_trace w history ss) ->
  exists before i,
    In ev (trace_of (rerun w i (session_after w before ss))).
Proof.
  revert ss. induction history as [|i rest IH]; intros ss; [intros []|].
  cbn [session_trace]. intros [H | H]%in_app_or.
  - exists [], i. exact H.
  - destruct (IH _ H) as (before & j & Hj). exists (i :: before), j. exact Hj.
Qed.

(** A run that calls the classifier or shows a card is served a model. *)
Lemma pipeline_served (w : World) (i : Inputs) (ss : Session) :
  existsb pipeline_event (trace_of (rerun w i ss)) = true ->
  exists model, serving w ss model /\ button i = true.
Proof.
  destruct (rerun_shape w i ss) as [e Hc Hl|m Hc Hl Hcls|m Hs Hb|m e Hs Hb|m r e Hs Hb|m r fig Hs Hb];
    unfold trace_of; cbn [fst snd]; try discriminate; eauto.
  unfold load_events. destruct (cached_model ss); discriminate.
Qed.

(** X8.  In a session that starts with an empty cache, whatever the
    history of reruns, the classifier is called and a result card or a
    chart is shown only when the artifact loads and its label list is
    [[0; 1]]: no rerun ever predicts with a model that did not pass the
    check of [load_model]. *)
Theorem pipeline_needs_checked_labels
  (w : World) (history : list Inputs) (ev : event) :
  In ev (session_trace w history fresh) ->
  pipeline_event ev = true ->
  exists model, joblib_load w = Returns model /\ classes_ model = [0; 1]%Z.
Proof.
  intros (before & i & Hin)%in_session_trace Hev.
  assert (Hsound : cache_sound w (session_after w before fresh)).
  { apply cache_sound_after. intros m H. discriminate H. }
  destruct (pipeline_served w i (session_after w before fresh)) as (m & Hs & _).
  { apply existsb_exists. eauto. }
  exists m. destruct Hs as [Hc | (_ & Hl & Hcls)]; [exact (Hsound m Hc) | now split].
Qed.

Lemma pipeline_needs_checked_labels_witness :
  exists model,
    joblib_load (Sample.world_of Sample.even_model) = Returns model /\
    classes_ model = [0; 1]%Z.
Proof.
  refine (pipeline_needs_checked_labels (Sample.world_of Sample.even_model)
            [More.idle_defaults; Sample.defaults]
            (ResultCard (make_result 0.5 0.5)) _ eq_refl).
  vm_compute. do 10 right. left. reflexivity.
Defined.

(** ** Failures of the classifier *)

Lemma rerun_predict_throws (w : World) (i : Inputs) (ss : Session)
  (model : Classifier) (e : exn) :
  serving w ss model ->
  button i = true ->
  predict model i = Throws e ->
  rerun w i ss
  = (Stopped,
     until_predict i ss ++ [StError ("预测过程出现异常：" ++ str e)],
     loaded ss model).
Proof.
  intros Hs Hb Hp. apply (rerun_prediction_fails w i ss model Hs Hb e).
  unfold predict in Hp.
  destruct (predict_proba model (features i)) as [rows|] eqn:Hrows;
    [|left; congruence].
  right. exists rows. split; [reflexivity|].
  destruct (first_row rows) as [proba_array|] eqn:Hfirst; [|left; congruence].
  right. exists proba_array. split; [reflexivity | exact Hp].
Qed.

(** X9.  When [predict_proba] raises, or returns an array without rows so
    that [[0]] raises [IndexError], the handler shows the text of the
    exception after the form and stops the run: no card, no explanation,
    no guide, no footer.  The model stays in the cache, and the same
    submission in the session the run leaves shows the same page. *)
Theorem classifier_failure_is_reported
  (w : World) (i : Inputs) (ss : Session) (model : Classifier) (e : exn) :
  serving w ss model ->
  button i = true ->
  predict_proba model (features i) = Throws e \/
  (predict_proba model (features i) = Returns [] /\
   e = IndexError "index 0 is out of bounds for axis 0 with size 0") ->
  rerun w i ss
  = (Stopped,
     until_predict i ss ++ [StError ("预测过程出现异常：" ++ str e)],
     loaded ss model) /\
  page (trace_of (rerun w i ss))
  = form_page ++ [StError ("预测过程出现异常：" ++ str e)] /\
  rerun w i (session_of (rerun w i ss))
  = (Stopped,
     [PageStyle; PageTitle; InputForm; CallPredictProba (features i);
      StError ("预测过程出现异常：" ++ str e)],
     loaded ss model).
Proof.
  intros Hs Hb H.
  assert (Hp : predict model i = Throws e).
  { unfold predict. destruct H as [-> | [-> ->]]; reflexivity. }
  pose proof (rerun_predict_throws w i ss model e Hs Hb Hp) as Hrun.
  rewrite Hrun. unfold trace_of, session_of; cbn [fst snd].
  split; [reflexivity|]. split.
  - now rewrite page_app, page_until_predict.
  - assert (Hs' : serving w (loaded ss model) model) by (left; reflexivity).
    rewrite (rerun_predict_throws w i (loaded ss model) model e Hs' Hb Hp).
    reflexivity.
Qed.

Lemma classifier_failure_is_reported_witness :
  page (trace_of (rerun (Sample.world_of More.silent_model) Sample.defaults fresh))
  = [PageStyle; PageTitle; InputForm;
     StError "预测过程出现异常：index 0 is out of bounds for axis 0 with size 0"].
Proof.
  exact (proj1 (proj2 (classifier_failure_is_reported
    (Sample.world_of More.silent_model) Sample.defaults fresh More.silent_model
    (IndexError "index 0 is out of bounds for axis 0 with size 0")
    (or_intror (conj eq_refl (conj eq_refl eq_refl)))
    eq_refl (or_intror (conj eq_refl eq_refl))))).
Defined.

(** ** The order of the events of a run *)

Lemma until_predict_no_pipeline (ss : Session) :
  existsb pipeline_event ([PageStyle] ++ load_events ss ++ [PageTitle; InputForm])
  = false.
Proof. unfold load_events. destruct (cached_model ss); reflexivity. Qed.

Lemma until_explainer_split (i : Inputs) (ss : Session) (r : PredictionResult) :
  until_explainer i ss r
  = ([PageStyle] ++ load_events ss ++ [PageTitle; InputForm]) ++
    [CallPredictProba (features i); ResultCard r;
     CallTreeExplainer (sample_data i)].
Proof.
  unfold until_explainer, until_card, until_predict.
  now rewrite <- !app_assoc.
Qed.

(** X10.  The explainer is called only in a submission, on the frame of
    the submitted inputs, and its call comes right after the call to the
    classifier and the result card: the classifier has seen the same six
    values, in the same order, as one row of floats; nothing of the
    pipeline precedes the three events, and after them comes nothing (the
    explanation failed) or the chart, its caption, the guide and the
    footer. *)
Theorem explainer_follows_card
  (w : World) (i : Inputs) (ss : Session) (df : DataFrame) :
  In (CallTreeExplainer df) (trace_of (rerun w i ss)) ->
  button i = true /\
  df = sample_data i /\
  columns df = ["Subtype"; "NLR"; "IL6"; "CAR"; "VitD"; "FT4"] /\
  exists before r after,
    trace_of (rerun w i ss)
    = before ++
      [CallPredictProba [map to_float64 (row df)]; ResultCard r;
       CallTreeExplainer df] ++ after /\
    existsb pipeline_event before = false /\
    (after = [] \/
     exists fig, after = [Pyplot fig; Caption; GuideExpander; Footer]).
Proof.
  destruct (rerun_shape w i ss) as [e Hc Hl|m Hc Hl Hcls|m Hs Hb|m e Hs Hb Hp|m r e Hs Hb Hp Hx|m r fig Hs Hb Hp Hx];
    unfold trace_of; cbn [fst snd].
  - intros H. repeat (destruct H as [H | H]; [discriminate H|]). destruct H.
  - intros H. repeat (destruct H as [H | H]; [discriminate H|]). destruct H.
  - unfold load_events. destruct (cached_model ss); intros H;
      repeat (destruct H as [H | H]; [discriminate H|]); destruct H.
  - unfold until_predict, load_events. destruct (cached_model ss); intros H;
      repeat (destruct H as [H | H]; [discriminate H|]); destruct H.
  - intros H.
    assert (Hdf : df = sample_data i).
    { apply until_explainer_events in H.
      repeat (destruct H as [H | H]; [discriminate H|]). injection H as Hdf; exact Hdf. }
    subst df. repeat split; [exact Hb|].
    exists ([PageStyle] ++ load_events ss ++ [PageTitle; InputForm]), r, [].
    split; [now rewrite app_nil_r, until_explainer_split|].
    split; [apply until_predict_no_pipeline | now left].
  - intros H.
    assert (Hdf : df = sample_data i).
    { apply in_app_or in H. destruct H as [H | H].
      - apply until_explainer_events in H.
        repeat (destruct H as [H | H]; [discriminate H|]). injection H as Hdf; exact Hdf.
      - repeat (destruct H as [H | H]; [discriminate H|]). destruct H. }
    subst df. repeat split; [exact Hb|].
    exists ([PageStyle] ++ load_events ss ++ [PageTitle; InputForm]), r,
      [Pyplot fig; Caption; GuideExpander; Footer].
    split; [now rewrite until_explainer_split, <- !app_assoc|].
    split; [apply until_predict_no_pipeline | right; now exists fig].
Qed.

Lemma explainer_follows_card_witness :
  trace_of (rerun Sample.failing_explainer Sample.defaults fresh)
  = [PageStyle; CallJoblibLoad; PageTitle; InputForm] ++
    [CallPredictProba [map to_float64 (row (sample_data Sample.defaults))];
     ResultCard (make_result 0.5 0.5);
     CallTreeExplainer (sample_data Sample.defaults)] /\
  button Sample.defaults = true.
Proof.
  split; [reflexivity|].
  refine (proj1 (explainer_follows_card Sample.failing_explainer Sample.defaults
                   fresh (sample_data Sample.defaults) _)).
  vm_compute. do 6 right. left. reflexivity.
Defined.

(** X11.  The reference guide and the footer are on the page exactly when
    the run completes, and then they are its last two elements: a run that
    stops or raises shows neither. *)
Theorem guide_and_footer_iff_completed (w : World) (i : Inputs) (ss : Session) :
  (outcome_of (rerun w i ss) = Done tt <-> In Footer (trace_of (rerun w i ss))) /\
  (outcome_of (rerun w i ss) = Done tt
   <-> In GuideExpander (trace_of (rerun w i ss))) /\
  (outcome_of (rerun w i ss) = Done tt ->
   exists before, trace_of (rerun w i ss) = before ++ [GuideExpander; Footer]).
Proof.
  assert (Hno : forall r ev, In ev (until_explainer i ss r) ->
                  ev <> Footer /\ ev <> GuideExpander).
  { intros r ev H. apply until_explainer_events in H.
    repeat (destruct H as [H | H]; [subst ev; split; discriminate|]).
    subst ev; split; discriminate. }
  assert (Hno' : forall e ev,
            In ev (until_predict i ss ++ [StError e]) ->
            ev <> Footer /\ ev <> GuideExpander).
  { intros e ev. unfold until_predict, load_events.
    destruct (cached_model ss); simpl; intros H;
      repeat (destruct H as [H | H]; [subst ev; split; discriminate|]);
      destruct H. }
  destruct (rerun_shape w i ss) as [e Hc Hl|m Hc Hl Hcls|m Hs Hb|m e Hs Hb Hp|m r e Hs Hb Hp Hx|m r fig Hs Hb Hp Hx];
    unfold outcome_of, trace_of; cbn [fst snd].
  - repeat split; try discriminate;
      intros H; repeat (destruct H as [H | H]; [discriminate H|]); destruct H.
  - repeat split; try discriminate;
      intros H; repeat (destruct H as [H | H]; [discriminate H|]); destruct H.
  - repeat split.
    + intros _. apply in_or_app; right. apply in_or_app; right. simpl; auto.
    + intros _. apply in_or_app; right. apply in_or_app; right. simpl; auto.
    + intros _. exists ([PageStyle] ++ load_events ss ++ [PageTitle; InputForm]).
      now rewrite <- !app_assoc.
  - repeat split; try discriminate; intros H; apply Hno' in H; tauto.
  - repeat split; try discriminate; intros H; apply Hno in H; tauto.
  - repeat split.
    + intros _. apply in_or_app; right. simpl; auto.
    + intros _. apply in_or_app; right. simpl; auto.
    + intros _. exists (until_explainer i ss r ++ [Pyplot fig; Caption]).
      now rewrite <- !app_assoc.
Qed.


(** X13.  What a run leaves in the session: matplotlib's [rcParams] are
    set to the two font entries exactly in the runs that show a result
    card (the explanation stage was entered), and are left as they were in
    every other run; a model in the cache is never dropped or replaced. *)
Theorem session_effects (w : World) (i : Inputs) (ss : Session) :
  rcParams (session_of (rerun w i ss))
  = (if existsb is_card (trace_of (rerun w i ss))
     then [("font.sans-serif", "SimHei"); ("axes.unicode_minus", "False")]
     else rcParams ss) /\
  (forall model, cached_model ss = Some model ->
     cached_model (session_of (rerun w i ss)) = Some model).
Proof.
  split.
  - destruct (rerun_shape w i ss) as [e Hc Hl|m Hc Hl Hcls|m Hs Hb|m e Hs Hb Hp|m r e Hs Hb Hp Hx|m r fig Hs Hb Hp Hx];
      unfold session_of, trace_of; cbn [fst snd];
      unfold until_explainer, until_card, until_predict, load_events;
      try reflexivity; destruct (cached_model ss); reflexivity.
  - intros model Hc. apply serving_cached. now left.
Qed.

(** ** The figure: bars and their labels *)

Lemma float_pos_not_neg (x : float) :
  (0 <? x)%float = true -> (x <? 0)%float = false.
Proof.
  rewrite !ltb_spec.
  change (Prim2SF 0) with (S754_zero false).
  destruct (Prim2SF x) as [s|s| |s m e]; try destruct s; cbv; congruence.
Qed.

Lemma label_side (k : nat) (val : float) (name : string) :
  (color_of val = "#ff6b6b" -> text_ha (text_label k val name) = "right") /\
  (text_ha (text_label k val name) = "left" -> color_of val = "#4CAF50").
Proof.
  unfold color_of, text_label; cbn [text_ha].
  destruct (0 <? val)%float eqn:E.
  - rewrite (float_pos_not_neg val E). split; [reflexivity | discriminate].
  - split; [discriminate | reflexivity].
Qed.

(** X14.  In every figure [render] returns, each label belongs to the bar
    with the same index: the label sits at the height of that bar, prints
    the bar's width as its value and the display name of the feature with
    that index, and the bar has the colour of that value.  A red bar has
    its label right-aligned; a left-aligned label is on a green bar. *)
Theorem labels_match_bars (vals : list float) (fig : Figure) (k : nat) (l : Label) :
  render vals = Returns fig ->
  nth_error (labels fig) k = Some l ->
  exists b,
    nth_error (bars fig) k = Some b /\
    bar_y b = k /\ text_y l = k /\
    bar_width b = text_value l /\
    bar_color b = color_of (text_value l) /\
    nth_error display_names k = Some (text_name l) /\
    (bar_color b = "#ff6b6b" -> text_ha l = "right") /\
    (text_ha l = "left" -> bar_color b = "#4CAF50").
Proof.
  unfold render, barh.
  destruct (_ =? _)%nat eqn:E.
  - apply Nat.eqb_eq in E.
    destruct vals as [|v0 [|v1 [|v2 [|v3 [|v4 [|v5 [|]]]]]]]; try discriminate E.
    intros [= <-]. cbn [labels bars].
    do 6 (destruct k as [|k];
          [intros [= <-]; eexists; split; [reflexivity|];
           repeat split; apply label_side|]).
    destruct k; discriminate.
  - destruct vals as [|v [|]]; simpl; try discriminate.
    intros [= <-]. cbn [labels bars].
    destruct k as [|k]; [|destruct k; discriminate].
    intros [= <-]; eexists; split; [reflexivity|].
    repeat split; apply label_side.
Qed.

Lemma labels_match_bars_witness :
  exists b,
    nth_error (bars Sample.chart) 1 = Some b /\
    bar_y b = 1%nat /\ bar_width b = 0.5%float /\ bar_color b = "#ff6b6b".
Proof.
  destruct (labels_match_bars (negate Sample.positive_scores) Sample.chart 1
              (text_label 1 0.5 "中性粒细胞/淋巴细胞比") eq_refl eq_refl)
    as (b & Hb & Hy & _ & Hw & Hc & _).
  exists b. repeat split; assumption.
Defined.


Lemma rerun_predicted (w : World) (i : Inputs) (ss : Session)
  (model : Classifier) (r : PredictionResult) :
  serving w ss model ->
  button i = true ->
  predict model i = Returns r ->
  rerun w i ss
  = match explain w i model r with
    | Returns fig =>
        (Done tt,
         until_explainer i ss r ++ [Pyplot fig; Caption; GuideExpander; Footer],
         plotted ss model)
    | Throws e => (Raised e, until_explainer i ss r, plotted ss model)
    end.
Proof.
  intros Hs Hb Hp. unfold predict in Hp.
  destruct (predict_proba model (features i)) as [rows|] eqn:Hrows;
    [|discriminate].
  destruct (first_row rows) as [proba_array|] eqn:Hfirst; [|discriminate].
  exact (rerun_after_prediction w i ss model rows proba_array r
           Hs Hb Hrows Hfirst Hp).
Qed.



(** X16.  Every result card a run shows carries class 1 with the label
    for high risk, or class 0 with the label for low risk: the label never
    disagrees with the class, and the class is never anything but 0 or 1,
    so the explanation is always sliced at class 0 or class 1. *)
Theorem card_label_matches_class
  (w : World) (i : Inputs) (ss : Session) (r : PredictionResult) :
  In (ResultCard r) (trace_of (rerun w i ss)) ->
  ((predicted_class r = 1%Z /\ predicted_label r = "高风险") \/
   (predicted_class r = 0%Z /\ predicted_label r = "低风险")) /\
  (forall shap_values,
     select_shap_values shap_values (predicted_class r)
     = class_slice shap_values 0%Z \/
     select_shap_values shap_values (predicted_class r)
     = class_slice shap_values 1%Z).
Proof.
  intros [proba_array Hr]%rerun_cards.
  destruct proba_array as [|p0 [|p1 [|]]]; try discriminate Hr.
  injection Hr as <-. unfold make_result, select_shap_values; simpl.
  destruct (50 <=? p1 * 100)%float; simpl; split; auto;
    intros sv; destruct (_ =? _)%nat; auto.
Qed.

Lemma card_label_matches_class_witness :
  predicted_class (make_result 0.5 0.5) = 1%Z /\
  predicted_label (make_result 0.5 0.5) = "高风险".
Proof.
  destruct (proj1 (card_label_matches_class (Sample.world_of Sample.even_model)
              Sample.defaults fresh (make_result 0.5 0.5)
              ltac:(vm_compute; do 5 right; left; reflexivity)))
    as [H | [H _]]; [exact H | discriminate H].
Defined.

(** ** Labels in terms of the explainer's scores *)

Lemma float_opp_neg (x : float) : (- x <? 0)%float = (0 <? x)%float.
Proof.
  rewrite !ltb_spec, opp_spec.
  change (Prim2SF 0) with (S754_zero false).
  destruct (Prim2SF x) as [s|s| |s m e]; try destruct s; reflexivity.
Qed.

Lemma float_abs_opp (x : float) : abs (- x) = abs x.
Proof.
  apply Prim2SF_inj. rewrite !abs_spec, opp_spec.
  destruct (Prim2SF x); reflexivity.
Qed.

Lemma label_of_negated (k : nat) (s : float) (name : string) :
  text_value (text_label k (- s) name) = (- s)%float /\
  (text_ha (text_label k (- s) name) = "left" <-> (0 <? s)%float = true) /\
  (text_color (text_label k (- s) name) = "white" <-> (0.2 <? abs s)%float = true).
Proof.
  unfold text_label; cbn [text_value text_ha text_color].
  rewrite float_opp_neg, float_abs_opp.
  split; [reflexivity|].
  split; [destruct (0 <? s)%float | destruct (0.2 <? abs s)%float];
    split; intros H; try reflexivity; discriminate H.
Qed.

(** X17.  In the figure drawn from the explainer's scores, label [k]
    prints the negated score [k]; it is left-aligned exactly when the
    score itself is above zero, and its font is white exactly when the
    magnitude of the score is above 0.2, so the sign flip of line 271
    mirrors the side of a label and leaves its font colour alone. *)
Theorem labels_of_backend_scores
  (scores : list float) (fig : Figure) (k : nat) (l : Label) :
  render (negate scores) = Returns fig ->
  nth_error (labels fig) k = Some l ->
  exists s,
    nth_error scores k = Some s /\
    text_value l = (- s)%float /\
    (text_ha l = "left" <-> (0 <? s)%float = true) /\
    (text_color l = "white" <-> (0.2 <? abs s)%float = true).
Proof.
  intros Hr Hl.
  destruct (render_heights _ _ Hr) as (_ & _ & Hlen).
  rewrite negate_length in Hlen.
  revert Hr. unfold render, barh.
  destruct Hlen as [H | H].
  - destruct scores as [|s0 [|s1 [|s2 [|s3 [|s4 [|s5 [|]]]]]]]; try discriminate H.
    cbn [negate map List.length Nat.eqb feature_ranges np_arange seq].
    intros [= <-]. revert Hl. cbn [labels].
    do 6 (destruct k as [|k];
          [intros [= <-]; eexists; split; [reflexivity|]; apply label_of_negated|]).
    destruct k; discriminate.
  - destruct scores as [|s0 [|]]; try discriminate H.
    cbn [negate map List.length Nat.eqb feature_ranges np_arange seq].
    intros [= <-]. revert Hl. cbn [labels].
    destruct k as [|k]; [|destruct k; discriminate].
    intros [= <-]; eexists; split; [reflexivity|]; apply label_of_negated.
Qed.

Lemma labels_of_backend_scores_witness :
  exists s,
    nth_error Sample.positive_scores 1 = Some s /\
    (0 <? s)%float = false /\ (0.2 <? abs s)%float = true.
Proof.
  destruct (labels_of_backend_scores Sample.positive_scores Sample.chart 1
              (text_label 1 0.5 "中性粒细胞/淋巴细胞比") eq_refl eq_refl)
    as (s & Hs & _ & _ & _).
  exists s. split; [exact Hs|].
  injection Hs as <-. split; reflexivity.
Defined.

(** ** The complete case analysis *)

(** X18.  The six shapes are all a rerun can be, and they exclude one
    another: a triple of outcome, trace and session has one of the shapes
    for [w], [i] and [ss] exactly when it is what the rerun returns. *)
Theorem run_shape_characterises_rerun
  (w : World) (i : Inputs) (ss : Session)
  (x : outcome unit * list event * Session) :
  run_shape w i ss x <-> x = rerun w i ss.
Proof.
  split; [|intros ->; apply rerun_shape].
  intros [e Hc Hl|m Hc Hl Hcls|m Hs Hb|m e Hs Hb Hp|m r e Hs Hb Hp Hx|m r fig Hs Hb Hp Hx].
  - now rewrite (load_raises_run w i ss e Hc Hl).
  - now rewrite (rerun_label_mismatch w i ss m Hc Hl Hcls).
  - rewrite (rerun_serving w i ss m Hs), Hb.
    unfold finish, ret, at_form. cbn [trace session].
    now rewrite <- !app_assoc.
  - now rewrite (rerun_predict_throws w i ss m e Hs Hb Hp).
  - now rewrite (rerun_predicted w i ss m r Hs Hb Hp), Hx.
  - now rewrite (rerun_predicted w i ss m r Hs Hb Hp), Hx.
Qed.
